(** * tree-sitter-cli: the grammar binding (src/compile.cc)

    A shallow embedding of the three functions of [compile.cc]
    ([RuleFromJsRule], [GrammarFromJsGrammar], [Compile]) and of the
    helpers they are written with, followed by the properties of the
    specification that concern them.

    The binding is C++ against the V8 API.  Three features of that
    setting are kept in the model because the code depends on them:

    - [ThrowException] does not unwind the C++ stack: it records an
      exception with the host and returns.  Effects are therefore a log
      of events, and what a function returns is separate from what it
      threw.
    - [Handle<T>::Cast] is an unchecked cast.  A method of [T] called on a
      handle whose value is not a [T] has no defined behaviour; the model
      then stops with [Undefined_behaviour].
    - [std::string(const char* )] and [String::New(const char* )] read a C
      string: they stop at the first NUL character. *)

From Stdlib Require Import String Ascii List ZArith Lia Bool Arith.
From Stdlib Require Import DecimalString.
Import ListNotations.
Open Scope string_scope.

Set Warnings "-register-all".

(** ** Host values *)

(** The values the host hands to the binding: plain data, as written by
    object and array literals.  An object is the ordered association of
    its own enumerable properties (enumeration order, keys taken
    distinct, lookup returns the first); it has the default prototype and
    no accessors.  The host enumerates the keys that are array indices
    first, in ascending order, and the other keys after them in the order
    they were added.  A string stands for its UTF-8 text.  [JsNumber n] is
    the number written [n]: the integer itself when it is a safe integer
    (magnitude at most 2^53, [safe_integer] below), beyond that the double
    nearest to it.  Numbers that are not integers are not modelled. *)
Inductive JsValue : Type :=
| JsUndefined
| JsNull
| JsBoolean (b : bool)
| JsNumber (n : Z)
| JsString (s : string)
| JsArray (elements : list JsValue)
| JsObject (properties : list (string * JsValue)).

Inductive Exception : Type :=
| TypeError (message : string).

(** ** Typed rules and grammars *)

(** Modelled from the spec: the rule type and the rule constructors of
    [tree_sitter/compiler.h] ([blank], [choice], [err], [pattern],
    [repeat], [seq], [str], [sym]), which [compile.cc] includes and which
    is not part of the sources.  The spec gives the typed rule as a closed
    variant with one case per constructor.  Children are [rule_ptr]s as in
    the code: shared pointers, which may be null. *)
Inductive Rule : Type :=
| Blank
| Choice (elements : list (option Rule))
| Err (content : option Rule)
| Pattern (value : string)
| Repeat (content : option Rule)
| Seq (elements : list (option Rule))
| Str (value : string)
| Sym (name : string).

(** [rule_ptr()] is [None]. *)
Definition rule_ptr : Type := option Rule.

Definition blank : rule_ptr := Some Blank.
Definition choice (members : list rule_ptr) : rule_ptr := Some (Choice members).
Definition err (rule : rule_ptr) : rule_ptr := Some (Err rule).
Definition pattern (value : string) : rule_ptr := Some (Pattern value).
Definition repeat (rule : rule_ptr) : rule_ptr := Some (Repeat rule).
Definition seq (members : list rule_ptr) : rule_ptr := Some (Seq members).
Definition str (value : string) : rule_ptr := Some (Str value).
Definition sym (name : string) : rule_ptr := Some (Sym name).

(** Modelled from the spec: [tree_sitter::Grammar], built from the ordered
    sequence of (rule name, rule) pairs.  The grammar's name is not part of
    it: [Compile] passes the name to the compiler next to the grammar. *)
Record Grammar : Type := MkGrammar { rules : list (string * rule_ptr) }.

(** ** Effects *)

(** What a call does besides returning: exceptions handed to the host and
    calls of the external compiler, in the order they happen. *)
Inductive Event : Type :=
| Throw (exception : Exception)
| CallCompile (grammar : Grammar) (name : string).

(** The outcome of running a piece of the binding.  [Undefined_behaviour]
    keeps the events that came before it.  [Out_of_fuel] is produced only by
    the fuel-indexed iterate [RuleFromJsRule_rec]; [RuleFromJsRule] itself
    never yields it ([RuleFromJsRule_total]). *)
Inductive outcome (A : Type) : Type :=
| Returns (result : A) (events : list Event)
| Undefined_behaviour (events : list Event)
| Out_of_fuel.

Arguments Returns {A} result events.
Arguments Undefined_behaviour {A} events.
Arguments Out_of_fuel {A}.

Definition M (A : Type) : Type := outcome A.

Definition ret {A : Type} (a : A) : M A := Returns a [].

Definition bind {A B : Type} (m : M A) (f : A -> M B) : M B :=
  match m with
  | Returns a events =>
      match f a with
      | Returns b events' => Returns b (events ++ events')
      | Undefined_behaviour events' => Undefined_behaviour (events ++ events')
      | Out_of_fuel => Out_of_fuel
      end
  | Undefined_behaviour events => Undefined_behaviour events
  | Out_of_fuel => Out_of_fuel
  end.

Declare Scope binding_scope.
Delimit Scope binding_scope with binding.
Notation "x <- m ;; k" := (bind m (fun x => k))
  (at level 61, m at next level, right associativity) : binding_scope.
Notation "m ;; k" := (bind m (fun _ => k))
  (at level 61, right associativity) : binding_scope.
Open Scope binding_scope.

(** [ThrowException(e)]: the exception is recorded and the call returns the
    undefined value. *)
Definition ThrowException (e : Exception) : M JsValue :=
  Returns JsUndefined [Throw e].

(** ** The host's operations on values *)

Definition IsObject (v : JsValue) : bool :=
  match v with
  | JsArray _ | JsObject _ => true
  | _ => false
  end.

Definition IsString (v : JsValue) : bool :=
  match v with
  | JsString _ => true
  | _ => false
  end.

Fixpoint lookup (key : string) (properties : list (string * JsValue)) : option JsValue :=
  match properties with
  | [] => None
  | (k, v) :: rest => if String.eqb k key then Some v else lookup key rest
  end.

(** The integers that are numbers of the host exactly, each with its own
    text. *)
Definition safe_integer (n : Z) : bool := (Z.abs n <=? 2 ^ 53)%Z.

(** The host's text of a number: for a safe integer, its decimal digits
    with a minus sign when negative.  Beyond the safe integers the host
    prints the nearest double, with other digits or in exponent form
    ([1e+21]); the digits given here are then not the host's text, and no
    property below states the text of such a number. *)
Definition NumberToString (n : Z) : string := NilZero.string_of_int (Z.to_int n).

Definition index_name (i : nat) : string := NilZero.string_of_uint (Nat.to_uint i).

(** The own enumerable properties of an array: its elements under their
    indices. *)
Definition array_properties (elements : list JsValue) : list (string * JsValue) :=
  combine (map index_name (List.seq 0 (length elements))) elements.

(** The value of property [key] of an object.  None of the keys the binding
    reads is defined by the default prototypes, so a key that is not an own
    property yields the undefined value. *)
Definition property (object : JsValue) (key : string) : JsValue :=
  match object with
  | JsObject properties =>
      match lookup key properties with
      | Some v => v
      | None => JsUndefined
      end
  | JsArray elements =>
      match lookup key (array_properties elements) with
      | Some v => v
      | None =>
          if String.eqb key "length" then JsNumber (Z.of_nat (length elements))
          else JsUndefined
      end
  | _ => JsUndefined
  end.

(** [object->GetOwnPropertyNames()], a method of [Object].  The names of an
    array are its indices, given here as strings: the binding only converts
    a name to text and passes it back to [Get], and both give the same for
    an index as a number. *)
Definition GetOwnPropertyNames (object : JsValue) : M (list JsValue) :=
  match object with
  | JsObject properties => ret (map (fun p => JsString (fst p)) properties)
  | JsArray elements => ret (map (fun p => JsString (fst p)) (array_properties elements))
  | _ => Undefined_behaviour []
  end.

(** [array->Length()], a method of [Array]. *)
Definition Array_Length (array : JsValue) : M nat :=
  match array with
  | JsArray elements => ret (length elements)
  | _ => Undefined_behaviour []
  end.

(** [array->Get(i)]. *)
Definition Array_Get (array : JsValue) (i : nat) : M JsValue :=
  match array with
  | JsArray elements => ret (nth i elements JsUndefined)
  | _ => Undefined_behaviour []
  end.

Definition has_own (key : string) (properties : list (string * JsValue)) : bool :=
  match lookup key properties with
  | Some _ => true
  | None => false
  end.

(** The host's conversion of a value to a string, [None] when it throws.
    An object converts through its [toString] method: the inherited one
    gives ["[object Object]"]; an own [toString] property of plain data is
    not callable and hides it, and the conversion throws.  An array joins
    the conversions of its elements with commas, the undefined value and
    null counting as empty. *)
Fixpoint ToString (v : JsValue) : option string :=
  match v with
  | JsUndefined => Some "undefined"
  | JsNull => Some "null"
  | JsBoolean true => Some "true"
  | JsBoolean false => Some "false"
  | JsNumber n => Some (NumberToString n)
  | JsString s => Some s
  | JsArray elements =>
      let element e :=
        match e with
        | JsUndefined | JsNull => Some ""
        | _ => ToString e
        end in
      (fix join (l : list JsValue) : option string :=
         match l with
         | [] => Some ""
         | e :: rest =>
             match element e with
             | None => None
             | Some s =>
                 match rest with
                 | [] => Some s
                 | _ :: _ =>
                     match join rest with
                     | Some t => Some (s ++ "," ++ t)
                     | None => None
                     end
                 end
             end
         end) elements
  | JsObject properties =>
      if has_own "toString" properties then None else Some "[object Object]"
  end.

(** The numbers that enter the conversion of a value to a string are safe
    integers: the value's own number, or the numbers of an array's
    elements.  An object converts without its properties being read. *)
Fixpoint safe_numbers (v : JsValue) : bool :=
  match v with
  | JsNumber n => safe_integer n
  | JsArray elements =>
      (fix all (l : list JsValue) : bool :=
         match l with
         | [] => true
         | e :: rest => safe_numbers e && all rest
         end) elements
  | _ => true
  end.

(** The C string held in a buffer: the characters before the first NUL. *)
Fixpoint c_str (s : string) : string :=
  match s with
  | EmptyString => EmptyString
  | String c rest => if Ascii.eqb c zero then EmptyString else String c (c_str rest)
  end.

(** [String::Utf8Value utf8_string(v)] followed by [*utf8_string]: the
    buffer of the converted value, or the null pointer when the conversion
    failed. *)
Definition Utf8Value (v : JsValue) : option string := ToString v.

(** [String::New(data)] and [String::NewSymbol(data)], with [data] a C
    string. *)
Definition String_New (data : string) : JsValue := JsString (c_str data).
Definition String_NewSymbol (data : string) : JsValue := JsString (c_str data).

(** [object->Get(key)], a method of [Object].  The key names the property
    through its conversion to a string; when that conversion throws, [Get]
    returns an empty handle, which every caller in [compile.cc]
    dereferences. *)
Definition Object_Get (object : JsValue) (key : JsValue) : M JsValue :=
  if IsObject object then
    match ToString key with
    | Some k => ret (property object k)
    | None => Undefined_behaviour []
    end
  else Undefined_behaviour [].

(** ** compile.cc *)

(** [StringFromJsString]: the [std::string] built from [*utf8_string].
    Constructing a [std::string] from the null pointer is undefined. *)
Definition StringFromJsString (js_string : JsValue) : M string :=
  match Utf8Value js_string with
  | Some buffer => ret (c_str buffer)
  | None => Undefined_behaviour []
  end.

(** [ObjectGet<T>(object, key)]: the property, cast to [T] unchecked. *)
Definition ObjectGet (object : JsValue) (key : string) : M JsValue :=
  Object_Get object (String_NewSymbol key).

(** [ArrayGet<T>(array, i)]: the element, cast to [T] unchecked. *)
Definition ArrayGet (array : JsValue) (i : nat) : M JsValue :=
  Array_Get array i.

(** The loop of the CHOICE and SEQ cases,
    [for (i = 0; i < length; i++) members.push_back(RuleFromJsRule(ArrayGet(js_members, i)))],
    with [i] the current index and [count] the iterations left. *)
Fixpoint members_loop (RuleFromJsRule : JsValue -> M rule_ptr)
    (js_members : JsValue) (i count : nat) (members : list rule_ptr)
    : M (list rule_ptr) :=
  match count with
  | O => ret members
  | S count' =>
      js_member <- ArrayGet js_members i ;;
      rule <- RuleFromJsRule js_member ;;
      members_loop RuleFromJsRule js_members (S i) count' (members ++ [rule])
  end.

(** The body of [RuleFromJsRule], with the recursive calls going through
    its first argument. *)
Definition RuleFromJsRule_body (RuleFromJsRule : JsValue -> M rule_ptr)
    (js_rule : JsValue) : M rule_ptr :=
  if negb (IsObject js_rule) then
    ThrowException (TypeError "Expected rule to be an object") ;;
    ret None
  else
    js_type <- ObjectGet js_rule "type" ;;
    if negb (IsString js_type) then
      ThrowException (TypeError "Expected rule type to be a string") ;;
      ret None
    else
      type <- StringFromJsString js_type ;;
      if String.eqb type "BLANK" then
        ret blank
      else if String.eqb type "CHOICE" then
        js_members <- ObjectGet js_rule "members" ;;
        length <- Array_Length js_members ;;
        members <- members_loop RuleFromJsRule js_members 0 length [] ;;
        ret (choice members)
      else if String.eqb type "ERROR" then
        js_value <- ObjectGet js_rule "value" ;;
        rule <- RuleFromJsRule js_value ;;
        ret (err rule)
      else if String.eqb type "PATTERN" then
        js_value <- ObjectGet js_rule "value" ;;
        value <- StringFromJsString js_value ;;
        ret (pattern value)
      else if String.eqb type "REPEAT" then
        js_value <- ObjectGet js_rule "value" ;;
        rule <- RuleFromJsRule js_value ;;
        ret (repeat rule)
      else if String.eqb type "SEQ" then
        js_members <- ObjectGet js_rule "members" ;;
        length <- Array_Length js_members ;;
        members <- members_loop RuleFromJsRule js_members 0 length [] ;;
        ret (seq members)
      else if String.eqb type "STRING" then
        js_value <- ObjectGet js_rule "value" ;;
        value <- StringFromJsString js_value ;;
        ret (str value)
      else if String.eqb type "SYMBOL" then
        js_name <- ObjectGet js_rule "name" ;;
        name <- StringFromJsString js_name ;;
        ret (sym name)
      else
        match js_type with
        | JsString s =>
            ThrowException (TypeError ("Unexpected rule type: " ++ s)) ;;
            ret None
        | _ => Undefined_behaviour []
        end.

(** The nesting depth of a value bounds the recursion of [RuleFromJsRule]:
    every recursive call is on a value read from inside its argument. *)
Fixpoint depth (v : JsValue) : nat :=
  match v with
  | JsArray elements =>
      S ((fix deepest (l : list JsValue) : nat :=
            match l with
            | [] => 0
            | e :: rest => Nat.max (depth e) (deepest rest)
            end) elements)
  | JsObject properties =>
      S ((fix deepest (l : list (string * JsValue)) : nat :=
            match l with
            | [] => 0
            | (_, e) :: rest => Nat.max (depth e) (deepest rest)
            end) properties)
  | _ => 0
  end.

Fixpoint RuleFromJsRule_rec (fuel : nat) (js_rule : JsValue) : M rule_ptr :=
  match fuel with
  | O => Out_of_fuel
  | S fuel' => RuleFromJsRule_body (RuleFromJsRule_rec fuel') js_rule
  end.

(** [RuleFromJsRule]: the recursion run with the fuel its argument needs. *)
Definition RuleFromJsRule (js_rule : JsValue) : M rule_ptr :=
  RuleFromJsRule_rec (S (depth js_rule)) js_rule.

(** The loop of [GrammarFromJsGrammar] over the rule names, [rules] being
    the vector built so far. *)
Fixpoint rules_loop (js_rules : JsValue) (rule_names : list JsValue)
    (rules : list (string * rule_ptr)) : M (Grammar * bool) :=
  match rule_names with
  | [] => ret (MkGrammar rules, true)
  | js_rule_name :: rest =>
      rule_name <- StringFromJsString js_rule_name ;;
      js_rule <- Object_Get js_rules js_rule_name ;;
      rule <- RuleFromJsRule js_rule ;;
      match rule with
      | Some _ => rules_loop js_rules rest (rules ++ [(rule_name, rule)])
      | None => ret (MkGrammar [], false)
      end
  end.

Definition GrammarFromJsGrammar (js_grammar : JsValue) : M (Grammar * bool) :=
  js_rules <- ObjectGet js_grammar "rules" ;;
  (if negb (IsObject js_rules) then
     ThrowException (TypeError "Expected grammar rules to be an object")
   else ret JsUndefined) ;;
  rule_names <- GetOwnPropertyNames js_rules ;;
  rules_loop js_rules rule_names [].

Section Boundary.

(** [tree_sitter::compile], the external compiler: a black box from a
    grammar and a name to the generated text, the conflicts and an
    optional error. *)
Variables Conflict GrammarError : Type.
Variable compile : Grammar -> string -> string * list Conflict * option GrammarError.

Definition tree_sitter_compile (grammar : Grammar) (name : string)
    : M (string * list Conflict * option GrammarError) :=
  Returns (compile grammar name) [CallCompile grammar name].

Definition Compile (args : list JsValue) : M JsValue :=
  let js_grammar := nth 0 args JsUndefined in
  if negb (IsObject js_grammar) then
    ThrowException (TypeError "Expected grammar to be an object")
  else
    js_name <- ObjectGet js_grammar "name" ;;
    if negb (IsString js_name) then
      ThrowException (TypeError "Expected grammar name to be a string")
    else
      name <- StringFromJsString js_name ;;
      grammarResult <- GrammarFromJsGrammar js_grammar ;;
      if negb (snd grammarResult) then
        ret JsUndefined
      else
        result <- tree_sitter_compile (fst grammarResult) name ;;
        ret (String_New (fst (fst result))).

End Boundary.

Arguments Compile {Conflict GrammarError} compile args.

(** ** Descriptions and compiler stand-ins used in the examples *)

(** [{type: tag, members: js_members}] *)
Definition members_node (tag : string) (js_members : list JsValue) : JsValue :=
  JsObject [("type", JsString tag); ("members", JsArray js_members)].

(** [{type: tag, value: js_value}] *)
Definition value_node (tag : string) (js_value : JsValue) : JsValue :=
  JsObject [("type", JsString tag); ("value", js_value)].

(** [{type: "SYMBOL", name: js_name}] *)
Definition symbol_node (js_name : JsValue) : JsValue :=
  JsObject [("type", JsString "SYMBOL"); ("name", js_name)].

(** [{name: "g", rules: {start: {type: "STRING", value: "x"}}}] *)
Definition example_description : JsValue :=
  JsObject [("name", JsString "g");
            ("rules", JsObject [("start", value_node "STRING" (JsString "x"))])].

Definition example_grammar : Grammar := MkGrammar [("start", Some (Str "x"))].

(** [{name: "g", rules: {a: {type: "BLANK"}, b: {type: "REPEAT", value: 5}}}]:
    the second entry has a sub-node that is not an object. *)
Definition description_with_invalid_subnode : JsValue :=
  JsObject [("name", JsString "g");
            ("rules", JsObject [("a", JsObject [("type", JsString "BLANK")]);
                                ("b", value_node "REPEAT" (JsNumber 5))])].

(** The type string [BLANK], a NUL character, [x]. *)
Definition blank_nul_x : string := "BLANK" ++ String zero "x".

(** A compiler that reports no error, and one that reports a fatal error
    next to the text it returns. *)
Definition accepting_compile (grammar : Grammar) (name : string)
    : string * list unit * option string :=
  ("parser for " ++ name, [], None).

Definition erroring_compile (grammar : Grammar) (name : string)
    : string * list unit * option string :=
  ("incomplete parser", [], Some "undefined symbol").

(** ** Vocabulary of the further properties *)

(** The null pointers of a rule tree: the null children at any depth, and
    the root when it is null itself. *)
Fixpoint null_count_rule (rule : Rule) : nat :=
  let child (p : rule_ptr) : nat :=
    match p with
    | Some r => null_count_rule r
    | None => 1
    end in
  match rule with
  | Choice elements | Seq elements =>
      (fix total (l : list rule_ptr) : nat :=
         match l with
         | [] => 0
         | p :: rest => child p + total rest
         end) elements
  | Err content | Repeat content => child content
  | Blank | Pattern _ | Str _ | Sym _ => 0
  end.

Definition null_count (rule : rule_ptr) : nat :=
  match rule with
  | Some r => null_count_rule r
  | None => 1
  end.

(** The three exceptions thrown in [RuleFromJsRule]. *)
Definition rule_error (e : Event) : Prop :=
  e = Throw (TypeError "Expected rule to be an object")
  \/ e = Throw (TypeError "Expected rule type to be a string")
  \/ exists type, e = Throw (TypeError ("Unexpected rule type: " ++ type)).

(** What is shown of every run of the builder: one exception for each null
    pointer of the result, and no exception but the builder's own. *)
Definition counted (rule : rule_ptr) (events : list Event) : Prop :=
  List.length events = null_count rule /\ Forall rule_error events.

(** The calls of the compiler in an event log. *)
Fixpoint compile_calls (events : list Event) : list (Grammar * string) :=
  match events with
  | [] => []
  | CallCompile grammar name :: rest => (grammar, name) :: compile_calls rest
  | Throw _ :: rest => compile_calls rest
  end.

Fixpoint nul_free (s : string) : bool :=
  match s with
  | EmptyString => true
  | String c rest => negb (Ascii.eqb c zero) && nul_free rest
  end.

(** A rule tree without null pointers whose strings hold no NUL
    character. *)
Fixpoint valid_rule (rule : Rule) : bool :=
  let child (p : rule_ptr) : bool :=
    match p with
    | Some r => valid_rule r
    | None => false
    end in
  match rule with
  | Choice elements | Seq elements =>
      (fix all (l : list rule_ptr) : bool :=
         match l with
         | [] => true
         | p :: rest => child p && all rest
         end) elements
  | Err content | Repeat content => child content
  | Pattern value | Str value => nul_free value
  | Sym name => nul_free name
  | Blank => true
  end.

(** The description of a rule as the host writes it, following the shapes
    [RuleFromJsRule] reads: a [type] tag, with [members], [value] or [name].
    A null pointer has no description as a node; it is written [null]. *)
Fixpoint JsRuleFromRule (rule : Rule) : JsValue :=
  let child (p : rule_ptr) : JsValue :=
    match p with
    | Some r => JsRuleFromRule r
    | None => JsNull
    end in
  match rule with
  | Blank => JsObject [("type", JsString "BLANK")]
  | Choice elements => members_node "CHOICE" (map child elements)
  | Err content => value_node "ERROR" (child content)
  | Pattern value => value_node "PATTERN" (JsString value)
  | Repeat content => value_node "REPEAT" (child content)
  | Seq elements => members_node "SEQ" (map child elements)
  | Str value => value_node "STRING" (JsString value)
  | Sym name => symbol_node (JsString name)
  end.

(** The events of a run, up to its return or up to the operation that has
    no defined behaviour. *)
Definition events_of {A : Type} (m : M A) : list Event :=
  match m with
  | Returns _ events | Undefined_behaviour events => events
  | Out_of_fuel => []
  end.

(** A key made of decimal digits only.  The array indices, which the host
    enumerates before the other keys whatever the order they were added
    in, are among these. *)
Definition is_digit (c : ascii) : bool :=
  Nat.leb 48 (nat_of_ascii c) && Nat.leb (nat_of_ascii c) 57.

Fixpoint all_digits (s : string) : bool :=
  match s with
  | EmptyString => true
  | String c rest => is_digit c && all_digits rest
  end.

Definition index_like (key : string) : bool :=
  match key with
  | EmptyString => false
  | String _ _ => all_digits key
  end.

(** The description of a grammar: its name, and under [rules] the
    description of each rule under the rule's name, added in the order of
    [named].  That is the order the host enumerates them in when no name is
    an array index. *)
Definition JsGrammarFromRules (name : string) (named : list (string * Rule)) : JsValue :=
  JsObject [("name", JsString name);
            ("rules", JsObject (map (fun entry => (fst entry, JsRuleFromRule (snd entry)))
                                    named))].

(** * Properties *)

(** ** The effect monad *)

Lemma bind_ret_l {A B : Type} (a : A) (k : A -> M B) : bind (ret a) k = k a.
Proof. unfold bind, ret. destruct (k a); reflexivity. Qed.

Lemma bind_Returns {A B : Type} (a : A) (events : list Event) (k : A -> M B) (b : B)
    (events' : list Event) :
  k a = Returns b events' ->
  bind (Returns a events) k = Returns b (events ++ events').
Proof. intros E. unfold bind. rewrite E. reflexivity. Qed.

(** Two continuations that agree on what [m] returns give the same run. *)
Lemma bind_congr {A B : Type} (m : M A) (k1 k2 : A -> M B) :
  (forall a events, m = Returns a events -> k1 a = k2 a) ->
  bind m k1 = bind m k2.
Proof.
  intros H. destruct m as [a events| |]; simpl; try reflexivity.
  rewrite (H a events eq_refl). reflexivity.
Qed.

Lemma bind_fuel {A B : Type} (m : M A) (k : A -> M B) :
  m <> Out_of_fuel ->
  (forall a events, m = Returns a events -> k a <> Out_of_fuel) ->
  bind m k <> Out_of_fuel.
Proof.
  intros Hm Hk. destruct m as [a events| |]; simpl; try congruence.
  specialize (Hk a events eq_refl). destruct (k a); congruence.
Qed.

(** What holds of every result of the continuation holds of every result
    of the run. *)
Lemma bind_result {A B : Type} (P : B -> Prop) (m : M A) (k : A -> M B) :
  (forall a b events, k a = Returns b events -> P b) ->
  forall b events, bind m k = Returns b events -> P b.
Proof.
  intros H b events. destruct m as [a ev| |]; simpl; try discriminate.
  destruct (k a) as [b' ev'| |] eqn:E; try discriminate.
  intros [= <- _]. exact (H a b' ev' E).
Qed.

(** ** Depth of the values read from inside a value *)

Lemma depth_JsArray (elements : list JsValue) :
  depth (JsArray elements) = S (list_max (map depth elements)).
Proof.
  simpl. f_equal. induction elements as [|e rest IH]; simpl; [reflexivity|].
  rewrite IH. reflexivity.
Qed.

Lemma depth_JsObject (properties : list (string * JsValue)) :
  depth (JsObject properties) = S (list_max (map (fun p => depth (snd p)) properties)).
Proof.
  simpl. f_equal. induction properties as [|[k e] rest IH]; simpl; [reflexivity|].
  rewrite IH. reflexivity.
Qed.

Lemma depth_In_le {A : Type} (d : A -> nat) (x : A) (l : list A) :
  In x l -> d x <= list_max (map d l).
Proof.
  induction l as [|y l IH]; simpl; [tauto|].
  intros [->|Hin]; [lia|]. specialize (IH Hin). lia.
Qed.

Lemma depth_element (e : JsValue) (elements : list JsValue) :
  In e elements -> depth e < depth (JsArray elements).
Proof.
  intros Hin. rewrite depth_JsArray.
  pose proof (depth_In_le depth e elements Hin). lia.
Qed.

Lemma lookup_In (key : string) (properties : list (string * JsValue)) (v : JsValue) :
  lookup key properties = Some v -> exists k, In (k, v) properties.
Proof.
  induction properties as [|[k w] rest IH]; simpl; [discriminate|].
  destruct (String.eqb k key).
  - intros [= ->]. exists k. now left.
  - intros E. destruct (IH E) as [k' Hin]. exists k'. now right.
Qed.

Lemma depth_property (object : JsValue) (key : string) :
  IsObject object = true -> depth (property object key) < depth object.
Proof.
  destruct object as [| | | | |elements|properties]; try discriminate; intros _.
  - unfold property. destruct (lookup key (array_properties elements)) as [v|] eqn:E.
    + apply lookup_In in E as [k Hin]. apply in_combine_r in Hin.
      now apply depth_element.
    + rewrite depth_JsArray. destruct (String.eqb key "length"); simpl; lia.
  - unfold property. destruct (lookup key properties) as [v|] eqn:E.
    + apply lookup_In in E as [k Hin]. rewrite depth_JsObject.
      pose proof (depth_In_le (fun p => depth (snd p)) (k, v) properties Hin).
      simpl in *. lia.
    + rewrite depth_JsObject. simpl. lia.
Qed.

Lemma depth_Object_Get (object key v : JsValue) (events : list Event) :
  Object_Get object key = Returns v events -> depth v < depth object.
Proof.
  unfold Object_Get. destruct (IsObject object) eqn:Hobj; [|discriminate].
  destruct (ToString key); [|discriminate].
  intros [= <- _]. now apply depth_property.
Qed.

Lemma depth_Array_Get (array v : JsValue) (i : nat) (events : list Event) :
  Array_Get array i = Returns v events -> depth v < depth array.
Proof.
  destruct array as [| | | | |elements|]; try discriminate.
  unfold Array_Get, ret. intros [= <- _].
  destruct (nth_in_or_default i elements JsUndefined) as [Hin | ->].
  - now apply depth_element.
  - rewrite depth_JsArray. simpl. lia.
Qed.

(** ** [RuleFromJsRule] is total and satisfies its recursive equation *)

Lemma Object_Get_fuel (object key : JsValue) : Object_Get object key <> Out_of_fuel.
Proof.
  unfold Object_Get. destruct (IsObject object); [|discriminate].
  destruct (ToString key); discriminate.
Qed.

Lemma Array_Get_fuel (array : JsValue) (i : nat) : Array_Get array i <> Out_of_fuel.
Proof. destruct array; discriminate. Qed.

Lemma Array_Length_fuel (array : JsValue) : Array_Length array <> Out_of_fuel.
Proof. destruct array; discriminate. Qed.

Lemma StringFromJsString_fuel (v : JsValue) : StringFromJsString v <> Out_of_fuel.
Proof. unfold StringFromJsString. destruct (Utf8Value v); discriminate. Qed.

Lemma members_loop_ext (f g : JsValue -> M rule_ptr) (js_members : JsValue) :
  (forall w, depth w < depth js_members -> f w = g w) ->
  forall count i members,
    members_loop f js_members i count members = members_loop g js_members i count members.
Proof.
  intros H. induction count as [|count IH]; intros i members; simpl; [reflexivity|].
  apply bind_congr. intros js_member events E.
  unfold ArrayGet in E. apply depth_Array_Get in E.
  rewrite (H js_member E).
  apply bind_congr. intros rule events' _. apply IH.
Qed.

Lemma members_loop_fuel (f : JsValue -> M rule_ptr) (js_members : JsValue) :
  (forall w, depth w < depth js_members -> f w <> Out_of_fuel) ->
  forall count i members,
    members_loop f js_members i count members <> Out_of_fuel.
Proof.
  intros H. induction count as [|count IH]; intros i members; simpl; [discriminate|].
  apply bind_fuel; [apply Array_Get_fuel|]. intros js_member events E.
  unfold ArrayGet in E. apply depth_Array_Get in E.
  apply bind_fuel; [now apply H|]. intros rule events' _. apply IH.
Qed.

(** The body calls its first argument only on values nested inside
    [js_rule]. *)
Lemma RuleFromJsRule_body_ext (f g : JsValue -> M rule_ptr) (js_rule : JsValue) :
  (forall w, depth w < depth js_rule -> f w = g w) ->
  RuleFromJsRule_body f js_rule = RuleFromJsRule_body g js_rule.
Proof.
  intros H. unfold RuleFromJsRule_body.
  destruct (negb (IsObject js_rule)); [reflexivity|].
  apply bind_congr. intros js_type ev _.
  destruct (negb (IsString js_type)); [reflexivity|].
  apply bind_congr. intros type ev' _.
  repeat match goal with
         | |- (if ?b then _ else _) = _ => destruct b
         end; try reflexivity.
  all: apply bind_congr; intros w evw Ew;
    unfold ObjectGet in Ew; apply depth_Object_Get in Ew.
  - apply bind_congr. intros len evl _.
    rewrite (members_loop_ext f g w); [reflexivity|].
    intros w' Hw'. apply H. lia.
  - rewrite (H w Ew). reflexivity.
  - rewrite (H w Ew). reflexivity.
  - apply bind_congr. intros len evl _.
    rewrite (members_loop_ext f g w); [reflexivity|].
    intros w' Hw'. apply H. lia.
Qed.

Lemma RuleFromJsRule_body_fuel (f : JsValue -> M rule_ptr) (js_rule : JsValue) :
  (forall w, depth w < depth js_rule -> f w <> Out_of_fuel) ->
  RuleFromJsRule_body f js_rule <> Out_of_fuel.
Proof.
  intros H. unfold RuleFromJsRule_body.
  destruct (negb (IsObject js_rule)); [discriminate|].
  apply bind_fuel; [apply Object_Get_fuel|]. intros js_type ev _.
  destruct (negb (IsString js_type)); [discriminate|].
  apply bind_fuel; [apply StringFromJsString_fuel|]. intros type ev' _.
  repeat match goal with
         | |- (if ?b then _ else _) <> _ => destruct b
         end; try discriminate.
  all: try (destruct js_type; simpl; discriminate).
  all: apply bind_fuel; [apply Object_Get_fuel|]; intros w evw Ew;
    unfold ObjectGet in Ew; apply depth_Object_Get in Ew.
  all: try (apply bind_fuel; [apply StringFromJsString_fuel|]; discriminate).
  all: try (apply bind_fuel; [now apply H|]; discriminate).
  all: apply bind_fuel; [apply Array_Length_fuel|]; intros len evl _;
    (apply bind_fuel; [|discriminate]);
    apply members_loop_fuel; intros w' Hw'; apply H; lia.
Qed.

Lemma RuleFromJsRule_rec_stable (n : nat) :
  forall m js_rule,
    depth js_rule < n -> depth js_rule < m ->
    RuleFromJsRule_rec n js_rule = RuleFromJsRule_rec m js_rule.
Proof.
  induction n as [|n IH]; intros m js_rule Hn Hm; [lia|].
  destruct m as [|m]; [lia|]. simpl.
  apply RuleFromJsRule_body_ext. intros w Hw. apply IH; lia.
Qed.

(** The equation of the source: [RuleFromJsRule] is its body run with
    itself for the recursive calls. *)
Lemma RuleFromJsRule_unfold (js_rule : JsValue) :
  RuleFromJsRule js_rule = RuleFromJsRule_body RuleFromJsRule js_rule.
Proof.
  unfold RuleFromJsRule at 1. simpl.
  apply RuleFromJsRule_body_ext. intros w Hw.
  unfold RuleFromJsRule. apply RuleFromJsRule_rec_stable; lia.
Qed.

Lemma RuleFromJsRule_rec_fuel (n : nat) :
  forall js_rule, depth js_rule < n -> RuleFromJsRule_rec n js_rule <> Out_of_fuel.
Proof.
  induction n as [|n IH]; intros js_rule Hn; [lia|]. simpl.
  apply RuleFromJsRule_body_fuel. intros w Hw. apply IH. lia.
Qed.

(** [RuleFromJsRule] returns or has undefined behaviour on every value: the
    fuel it is given is always enough. *)
Lemma RuleFromJsRule_total (js_rule : JsValue) :
  RuleFromJsRule js_rule <> Out_of_fuel.
Proof. unfold RuleFromJsRule. apply RuleFromJsRule_rec_fuel. lia. Qed.

(** ** The loops *)

(** When every member builds, the loop leaves the built rules in the
    vector in the order of the array. *)
Lemma members_loop_well_formed (f : JsValue -> M rule_ptr) (rest : list JsValue) :
  forall (built : list Rule) (done : list JsValue) (members : list rule_ptr),
    Forall2 (fun js_member rule => f js_member = Returns (Some rule) []) rest built ->
    members_loop f (JsArray (done ++ rest)) (length done) (length rest) members
    = Returns (members ++ map Some built)%list [].
Proof.
  induction rest as [|js_member rest IH]; intros built done members HF.
  - inversion HF; subst. simpl. rewrite app_nil_r. reflexivity.
  - inversion HF as [|? rule ? built' Hf HF']; subst.
    cbn [members_loop length]. unfold ArrayGet, Array_Get.
    rewrite nth_middle, bind_ret_l, Hf.
    replace (done ++ js_member :: rest)%list with ((done ++ [js_member]) ++ rest)%list
      by (rewrite <- app_assoc; reflexivity).
    replace (S (length done)) with (length (done ++ [js_member])%list)
      by (rewrite length_app; simpl; lia).
    erewrite bind_Returns by (apply IH; exact HF').
    cbn [map]. rewrite <- app_assoc. reflexivity.
Qed.

Lemma ObjectGet_object (object : JsValue) (key : string) :
  IsObject object = true ->
  ObjectGet object key = ret (property object (c_str key)).
Proof. intros H. unfold ObjectGet, Object_Get. rewrite H. reflexivity. Qed.

(** [RuleFromJsRule] on a node with a string type, up to the dispatch on
    the type. *)
Lemma RuleFromJsRule_typed (js_rule : JsValue) (tag : string) :
  IsObject js_rule = true ->
  property js_rule "type" = JsString tag ->
  RuleFromJsRule js_rule =
    (type <- StringFromJsString (JsString tag) ;;
     if String.eqb type "BLANK" then
       ret blank
     else if String.eqb type "CHOICE" then
       js_members <- ObjectGet js_rule "members" ;;
       length <- Array_Length js_members ;;
       members <- members_loop RuleFromJsRule js_members 0 length [] ;;
       ret (choice members)
     else if String.eqb type "ERROR" then
       js_value <- ObjectGet js_rule "value" ;;
       rule <- RuleFromJsRule js_value ;;
       ret (err rule)
     else if String.eqb type "PATTERN" then
       js_value <- ObjectGet js_rule "value" ;;
       value <- StringFromJsString js_value ;;
       ret (pattern value)
     else if String.eqb type "REPEAT" then
       js_value <- ObjectGet js_rule "value" ;;
       rule <- RuleFromJsRule js_value ;;
       ret (repeat rule)
     else if String.eqb type "SEQ" then
       js_members <- ObjectGet js_rule "members" ;;
       length <- Array_Length js_members ;;
       members <- members_loop RuleFromJsRule js_members 0 length [] ;;
       ret (seq members)
     else if String.eqb type "STRING" then
       js_value <- ObjectGet js_rule "value" ;;
       value <- StringFromJsString js_value ;;
       ret (str value)
     else if String.eqb type "SYMBOL" then
       js_name <- ObjectGet js_rule "name" ;;
       name <- StringFromJsString js_name ;;
       ret (sym name)
     else
       ThrowException (TypeError ("Unexpected rule type: " ++ tag)) ;;
       ret None).
Proof.
  intros Hobj Htype. rewrite RuleFromJsRule_unfold. unfold RuleFromJsRule_body.
  rewrite Hobj. cbn [negb].
  rewrite (ObjectGet_object js_rule "type" Hobj), bind_ret_l.
  change (c_str "type") with "type". rewrite Htype. reflexivity.
Qed.

(** Runs [RuleFromJsRule] on an object node whose type is a literal tag, up
    to the branch of that tag. *)
Ltac dispatch_on_type Hobj Htype :=
  rewrite (RuleFromJsRule_typed _ _ Hobj Htype);
  unfold StringFromJsString at 1; cbn [Utf8Value ToString]; rewrite bind_ret_l;
  cbv iota beta delta [c_str String.eqb Ascii.eqb Bool.eqb zero].

(** Reads property [key] of the object [js_rule]. *)
Ltac read_property js_rule key Hobj :=
  rewrite (ObjectGet_object js_rule key Hobj), bind_ret_l;
  change (c_str key) with key.

Lemma members_well_formed (mk : list rule_ptr -> rule_ptr) (js_rule : JsValue)
    (js_members : list JsValue) (built : list Rule) :
  IsObject js_rule = true ->
  property js_rule "members" = JsArray js_members ->
  Forall2 (fun js_member rule => RuleFromJsRule js_member = Returns (Some rule) [])
    js_members built ->
  (js_members <- ObjectGet js_rule "members" ;;
   length <- Array_Length js_members ;;
   members <- members_loop RuleFromJsRule js_members 0 length [] ;;
   ret (mk members))
  = Returns (mk (map Some built)) [].
Proof.
  intros Hobj Hmembers HF.
  read_property js_rule "members" Hobj. rewrite Hmembers.
  unfold Array_Length. rewrite bind_ret_l.
  pose proof (members_loop_well_formed RuleFromJsRule js_members built [] [] HF) as E.
  cbn [app List.length] in E. rewrite E. reflexivity.
Qed.

(** ** Rule builder *)

(** The CHOICE, ERROR, REPEAT and SEQ cases never return the null rule,
    whatever the recursive calls returned: a failure below the node is not
    passed on through the result. *)
Lemma RuleFromJsRule_composite_not_null (js_rule : JsValue) (tag : string) :
  IsObject js_rule = true ->
  property js_rule "type" = JsString tag ->
  In tag ["CHOICE"; "ERROR"; "REPEAT"; "SEQ"] ->
  forall rule events, RuleFromJsRule js_rule = Returns rule events -> rule <> None.
Proof.
  intros Hobj Htype Htag.
  assert (Hret : forall (r : Rule) (rule : rule_ptr) (events : list Event),
             ret (Some r) = Returns rule events -> rule <> None)
    by (intros r rule events [= <- _]; discriminate).
  simpl in Htag. destruct Htag as [<-|[<-|[<-|[<-|[]]]]];
    dispatch_on_type Hobj Htype;
    repeat (apply bind_result; intros ?); apply Hret.
Qed.

(** C1 (does not hold of the code).  A member whose build fails does not
    stop the CHOICE or SEQ loop: the null rule it returns is pushed into
    the vector, the remaining members are built, and a Choice or Seq node
    with a null child next to valid children is returned, the exception
    having been thrown on the side. *)
Theorem C1_partial_node_is_built :
  RuleFromJsRule
    (members_node "CHOICE" [value_node "STRING" (JsString "a"); JsNumber 5])
  = Returns (Some (Choice [Some (Str "a"); None]))
      [Throw (TypeError "Expected rule to be an object")]
  /\
  RuleFromJsRule
    (members_node "SEQ" [JsNumber 5; value_node "STRING" (JsString "a")])
  = Returns (Some (Seq [None; Some (Str "a")]))
      [Throw (TypeError "Expected rule to be an object")].
Proof. split; vm_compute; reflexivity. Qed.

(** A CHOICE or SEQ node whose [members] is not an array, an absent one
    included, is not rejected: the length is read from it regardless. *)
Lemma RuleFromJsRule_members_not_array (js_rule : JsValue) (tag : string) :
  IsObject js_rule = true ->
  property js_rule "type" = JsString tag ->
  In tag ["CHOICE"; "SEQ"] ->
  (forall elements, property js_rule "members" <> JsArray elements) ->
  RuleFromJsRule js_rule = Undefined_behaviour [].
Proof.
  intros Hobj Htype Htag Hmembers.
  simpl in Htag. destruct Htag as [<-|[<-|[]]];
    dispatch_on_type Hobj Htype; read_property js_rule "members" Hobj;
    destruct (property js_rule "members") as [| | | | |elements|];
    try reflexivity; exfalso; exact (Hmembers elements eq_refl).
Qed.

(** C3 (does not hold of the code).  On a CHOICE node without a [members]
    field the code throws nothing: it takes the length of the undefined
    value through an unchecked cast to [Array], which has no defined
    behaviour. *)
Theorem C3_choice_without_members :
  RuleFromJsRule (JsObject [("type", JsString "CHOICE")]) = Undefined_behaviour [].
Proof. vm_compute. reflexivity. Qed.

(** C6 (does not hold of the code).  The type is compared after a
    conversion that stops at the first NUL character: the type string
    [BLANK], NUL, [x] is none of the eight tags, yet the node is built as
    Blank and no exception is thrown. *)
Theorem C6_type_cut_at_nul :
  ~ In blank_nul_x
      ["BLANK"; "CHOICE"; "ERROR"; "PATTERN"; "REPEAT"; "SEQ"; "STRING"; "SYMBOL"]
  /\ RuleFromJsRule (JsObject [("type", JsString blank_nul_x)]) = Returns (Some Blank) [].
Proof.
  split; [|vm_compute; reflexivity].
  simpl. intros H. repeat (destruct H as [H|H]; [discriminate H|]). exact H.
Qed.

(** C7.  For a CHOICE or SEQ node whose members all build, the children of
    the resulting rule are the built members in the order of [members];
    and when two members build to different rules, the nodes with members
    [A, B] and [B, A] build to different trees. *)
Theorem C7_member_order_preserved :
  (forall js_rule js_members built,
      IsObject js_rule = true ->
      property js_rule "type" = JsString "CHOICE" ->
      property js_rule "members" = JsArray js_members ->
      Forall2 (fun js_member rule => RuleFromJsRule js_member = Returns (Some rule) [])
        js_members built ->
      RuleFromJsRule js_rule = Returns (Some (Choice (map Some built))) [])
  /\
  (forall js_rule js_members built,
      IsObject js_rule = true ->
      property js_rule "type" = JsString "SEQ" ->
      property js_rule "members" = JsArray js_members ->
      Forall2 (fun js_member rule => RuleFromJsRule js_member = Returns (Some rule) [])
        js_members built ->
      RuleFromJsRule js_rule = Returns (Some (Seq (map Some built))) [])
  /\
  (forall A B a b,
      RuleFromJsRule A = Returns (Some a) [] ->
      RuleFromJsRule B = Returns (Some b) [] ->
      a <> b ->
      RuleFromJsRule (members_node "CHOICE" [A; B])
        <> RuleFromJsRule (members_node "CHOICE" [B; A])
      /\
      RuleFromJsRule (members_node "SEQ" [A; B])
        <> RuleFromJsRule (members_node "SEQ" [B; A])).
Proof.
  assert (HC : forall js_rule js_members built,
      IsObject js_rule = true ->
      property js_rule "type" = JsString "CHOICE" ->
      property js_rule "members" = JsArray js_members ->
      Forall2 (fun js_member rule => RuleFromJsRule js_member = Returns (Some rule) [])
        js_members built ->
      RuleFromJsRule js_rule = Returns (Some (Choice (map Some built))) []).
  { intros js_rule js_members built Hobj Htype Hmembers HF.
    dispatch_on_type Hobj Htype.
    exact (members_well_formed choice js_rule js_members built Hobj Hmembers HF). }
  assert (HS : forall js_rule js_members built,
      IsObject js_rule = true ->
      property js_rule "type" = JsString "SEQ" ->
      property js_rule "members" = JsArray js_members ->
      Forall2 (fun js_member rule => RuleFromJsRule js_member = Returns (Some rule) [])
        js_members built ->
      RuleFromJsRule js_rule = Returns (Some (Seq (map Some built))) []).
  { intros js_rule js_members built Hobj Htype Hmembers HF.
    dispatch_on_type Hobj Htype.
    exact (members_well_formed seq js_rule js_members built Hobj Hmembers HF). }
  split; [exact HC|]. split; [exact HS|].
  intros A B a b HA HB Hab.
  assert (HAB : Forall2 (fun js_member rule => RuleFromJsRule js_member = Returns (Some rule) [])
                  [A; B] [a; b]) by (repeat constructor; assumption).
  assert (HBA : Forall2 (fun js_member rule => RuleFromJsRule js_member = Returns (Some rule) [])
                  [B; A] [b; a]) by (repeat constructor; assumption).
  split.
  - rewrite (HC (members_node "CHOICE" [A; B]) [A; B] [a; b] eq_refl eq_refl eq_refl HAB).
    rewrite (HC (members_node "CHOICE" [B; A]) [B; A] [b; a] eq_refl eq_refl eq_refl HBA).
    simpl. intros [= E _]. exact (Hab E).
  - rewrite (HS (members_node "SEQ" [A; B]) [A; B] [a; b] eq_refl eq_refl eq_refl HAB).
    rewrite (HS (members_node "SEQ" [B; A]) [B; A] [b; a] eq_refl eq_refl eq_refl HBA).
    simpl. intros [= E _]. exact (Hab E).
Qed.

Lemma C7_member_order_witness :
  RuleFromJsRule
    (members_node "CHOICE" [value_node "STRING" (JsString "a"); symbol_node (JsString "b")])
  = Returns (Some (Choice [Some (Str "a"); Some (Sym "b")])) []
  /\
  RuleFromJsRule
    (members_node "SEQ" [value_node "STRING" (JsString "a"); symbol_node (JsString "b")])
  = Returns (Some (Seq [Some (Str "a"); Some (Sym "b")])) []
  /\
  RuleFromJsRule
    (members_node "CHOICE" [value_node "STRING" (JsString "a"); symbol_node (JsString "b")])
  <> RuleFromJsRule
    (members_node "CHOICE" [symbol_node (JsString "b"); value_node "STRING" (JsString "a")])
  /\
  RuleFromJsRule
    (members_node "SEQ" [value_node "STRING" (JsString "a"); symbol_node (JsString "b")])
  <> RuleFromJsRule
    (members_node "SEQ" [symbol_node (JsString "b"); value_node "STRING" (JsString "a")]).
Proof.
  destruct C7_member_order_preserved as [HC [HS HX]].
  split; [|split].
  - apply (HC _ [value_node "STRING" (JsString "a"); symbol_node (JsString "b")]
             [Str "a"; Sym "b"]); try reflexivity.
    repeat constructor.
  - apply (HS _ [value_node "STRING" (JsString "a"); symbol_node (JsString "b")]
             [Str "a"; Sym "b"]); try reflexivity.
    repeat constructor.
  - apply (HX (value_node "STRING" (JsString "a")) (symbol_node (JsString "b"))
             (Str "a") (Sym "b")); try reflexivity.
    discriminate.
Defined.

(** A type whose text up to the first NUL is none of the eight tags is
    rejected, and the exception carries the whole type string. *)
Lemma RuleFromJsRule_unknown_type (js_rule : JsValue) (tag : string) :
  IsObject js_rule = true ->
  property js_rule "type" = JsString tag ->
  ~ In (c_str tag)
      ["BLANK"; "CHOICE"; "ERROR"; "PATTERN"; "REPEAT"; "SEQ"; "STRING"; "SYMBOL"] ->
  RuleFromJsRule js_rule
  = Returns None [Throw (TypeError ("Unexpected rule type: " ++ tag))].
Proof.
  intros Hobj Htype Hnot.
  rewrite (RuleFromJsRule_typed js_rule tag Hobj Htype).
  unfold StringFromJsString. cbn [Utf8Value ToString]. rewrite bind_ret_l.
  repeat match goal with
         | |- (if String.eqb ?x ?y then _ else _) = _ =>
             destruct (String.eqb_spec x y) as [E|_];
             [exfalso; apply Hnot; rewrite E; simpl; tauto|]
         end.
  reflexivity.
Qed.

(** C10, counterexample.  A payload the host cannot convert to a string:
    an object whose own [toString] property is not callable.  The
    conversion buffer is then the null pointer and no rule is returned. *)
Lemma C10_counterexample :
  RuleFromJsRule (value_node "STRING" (JsObject [("toString", JsNumber 1)]))
  = Undefined_behaviour []
  /\
  forall value events,
    RuleFromJsRule (value_node "STRING" (JsObject [("toString", JsNumber 1)]))
    <> Returns (Some (Str value)) events.
Proof.
  assert (E : RuleFromJsRule (value_node "STRING" (JsObject [("toString", JsNumber 1)]))
              = Undefined_behaviour []) by (vm_compute; reflexivity).
  split; [exact E|]. intros value events. rewrite E. discriminate.
Qed.

(** C10, as amended.  For a PATTERN, STRING or SYMBOL node the payload
    field is not validated: whenever the host can convert it to a string,
    a rule of the node's kind is returned and nothing is thrown.  The rule
    carries the C string of that conversion; this is stated for payloads
    whose numbers are safe integers, where the conversion of the model is
    the host's.  The conversion exists for every value that is not an array
    or an object, the undefined value of an absent field included. *)
Theorem C10_payload_not_validated :
  (forall js_rule text,
      IsObject js_rule = true ->
      property js_rule "type" = JsString "PATTERN" ->
      safe_numbers (property js_rule "value") = true ->
      ToString (property js_rule "value") = Some text ->
      RuleFromJsRule js_rule = Returns (Some (Pattern (c_str text))) [])
  /\
  (forall js_rule text,
      IsObject js_rule = true ->
      property js_rule "type" = JsString "STRING" ->
      safe_numbers (property js_rule "value") = true ->
      ToString (property js_rule "value") = Some text ->
      RuleFromJsRule js_rule = Returns (Some (Str (c_str text))) [])
  /\
  (forall js_rule text,
      IsObject js_rule = true ->
      property js_rule "type" = JsString "SYMBOL" ->
      safe_numbers (property js_rule "name") = true ->
      ToString (property js_rule "name") = Some text ->
      RuleFromJsRule js_rule = Returns (Some (Sym (c_str text))) [])
  /\
  (forall js_rule type key (mk : string -> Rule),
      IsObject js_rule = true ->
      property js_rule "type" = JsString type ->
      (type = "PATTERN" /\ key = "value" /\ mk = Pattern)
      \/ (type = "STRING" /\ key = "value" /\ mk = Str)
      \/ (type = "SYMBOL" /\ key = "name" /\ mk = Sym) ->
      (exists text, ToString (property js_rule key) = Some text) ->
      exists value, RuleFromJsRule js_rule = Returns (Some (mk value)) [])
  /\
  (forall payload, IsObject payload = false -> exists text, ToString payload = Some text).
Proof.
  assert (HP : forall js_rule text,
             IsObject js_rule = true ->
             property js_rule "type" = JsString "PATTERN" ->
             ToString (property js_rule "value") = Some text ->
             RuleFromJsRule js_rule = Returns (Some (Pattern (c_str text))) []).
  { intros js_rule text Hobj Htype Htext.
    dispatch_on_type Hobj Htype. read_property js_rule "value" Hobj.
    unfold StringFromJsString, Utf8Value. rewrite Htext. reflexivity. }
  assert (HS : forall js_rule text,
             IsObject js_rule = true ->
             property js_rule "type" = JsString "STRING" ->
             ToString (property js_rule "value") = Some text ->
             RuleFromJsRule js_rule = Returns (Some (Str (c_str text))) []).
  { intros js_rule text Hobj Htype Htext.
    dispatch_on_type Hobj Htype. read_property js_rule "value" Hobj.
    unfold StringFromJsString, Utf8Value. rewrite Htext. reflexivity. }
  assert (HY : forall js_rule text,
             IsObject js_rule = true ->
             property js_rule "type" = JsString "SYMBOL" ->
             ToString (property js_rule "name") = Some text ->
             RuleFromJsRule js_rule = Returns (Some (Sym (c_str text))) []).
  { intros js_rule text Hobj Htype Htext.
    dispatch_on_type Hobj Htype. read_property js_rule "name" Hobj.
    unfold StringFromJsString, Utf8Value. rewrite Htext. reflexivity. }
  split; [intros js_rule text Hobj Htype _; now apply HP|].
  split; [intros js_rule text Hobj Htype _; now apply HS|].
  split; [intros js_rule text Hobj Htype _; now apply HY|].
  split.
  - intros js_rule type key mk Hobj Htype Hcase [text Htext].
    exists (c_str text).
    destruct Hcase as [(-> & -> & ->)|[(-> & -> & ->)|(-> & -> & ->)]]; auto.
  - intros payload Hobj.
    destruct payload as [| |[|]|n|s| |]; try discriminate; simpl; eauto.
Qed.

Lemma C10_payload_witness :
  RuleFromJsRule (JsObject [("type", JsString "PATTERN")])
  = Returns (Some (Pattern "undefined")) []
  /\
  RuleFromJsRule (value_node "STRING" (JsNumber 5)) = Returns (Some (Str "5")) []
  /\
  RuleFromJsRule (symbol_node JsNull) = Returns (Some (Sym "null")) []
  /\
  (exists value,
      RuleFromJsRule (value_node "STRING" (JsNumber (10 ^ 21)))
      = Returns (Some (Str value)) [])
  /\
  exists text, ToString (JsBoolean true) = Some text.
Proof.
  destruct C10_payload_not_validated as [HP [HS [HY [HE HT]]]].
  split; [|split; [|split; [|split]]].
  - apply (HP (JsObject [("type", JsString "PATTERN")]) "undefined"); reflexivity.
  - apply (HS (value_node "STRING" (JsNumber 5)) "5"); reflexivity.
  - apply (HY (symbol_node JsNull) "null"); reflexivity.
  - apply (HE (value_node "STRING" (JsNumber (10 ^ 21))) "STRING" "value" Str
             eq_refl eq_refl).
    + right. left. repeat split.
    + apply (HT (JsNumber (10 ^ 21))). reflexivity.
  - apply (HT (JsBoolean true)). reflexivity.
Defined.

(** ** Grammar assembler *)

(** One iteration of the loop over the rule names: a null rule ends the
    assembly with the empty grammar and [false]; any other rule is pushed
    and the loop goes on. *)
Lemma rules_loop_null_rule (js_rules : JsValue) (key : string) (rest : list JsValue)
    (rules : list (string * rule_ptr)) (events : list Event) :
  IsObject js_rules = true ->
  RuleFromJsRule (property js_rules key) = Returns None events ->
  rules_loop js_rules (JsString key :: rest) rules = Returns (MkGrammar [], false) events.
Proof.
  intros Hobj Hrule. cbn [rules_loop].
  unfold StringFromJsString, Object_Get. cbn [Utf8Value ToString].
  rewrite Hobj, !bind_ret_l, Hrule. simpl. rewrite app_nil_r. reflexivity.
Qed.

Lemma rules_loop_built_rule (js_rules : JsValue) (key : string) (rest : list JsValue)
    (rules : list (string * rule_ptr)) (rule : Rule) (events : list Event) :
  IsObject js_rules = true ->
  RuleFromJsRule (property js_rules key) = Returns (Some rule) events ->
  rules_loop js_rules (JsString key :: rest) rules
  = (Returns tt events ;; rules_loop js_rules rest (rules ++ [(c_str key, Some rule)])).
Proof.
  intros Hobj Hrule. cbn [rules_loop].
  unfold StringFromJsString, Object_Get. cbn [Utf8Value ToString].
  rewrite Hobj, !bind_ret_l, Hrule. reflexivity.
Qed.

(** The assembler stops at the first entry whose build returns the null
    rule: the entries built before it are dropped and the entries after it
    are not built. *)
Lemma rules_loop_first_null (js_rules : JsValue) (key : string) (after : list JsValue)
    (events : list Event) :
  IsObject js_rules = true ->
  RuleFromJsRule (property js_rules key) = Returns None events ->
  forall (before : list string) (built : list Rule) (rules : list (string * rule_ptr)),
    Forall2 (fun k rule => RuleFromJsRule (property js_rules k) = Returns (Some rule) [])
      before built ->
    rules_loop js_rules (map JsString before ++ JsString key :: after) rules
    = Returns (MkGrammar [], false) events.
Proof.
  intros Hobj Hnull before built rules HF. revert rules.
  induction HF as [|k rule before built Hk HF IH]; intros rules.
  - now apply rules_loop_null_rule.
  - cbn [map app]. rewrite (rules_loop_built_rule _ _ _ _ rule [] Hobj Hk).
    exact (eq_trans (bind_ret_l tt _) (IH _)).
Qed.

Lemma GrammarFromJsGrammar_first_null (js_grammar : JsValue)
    (properties : list (string * JsValue)) (before : list string) (key : string)
    (after : list string) (built : list Rule) (events : list Event) :
  IsObject js_grammar = true ->
  property js_grammar "rules" = JsObject properties ->
  map fst properties = (before ++ key :: after)%list ->
  Forall2 (fun k rule =>
             RuleFromJsRule (property (JsObject properties) k) = Returns (Some rule) [])
    before built ->
  RuleFromJsRule (property (JsObject properties) key) = Returns None events ->
  GrammarFromJsGrammar js_grammar = Returns (MkGrammar [], false) events.
Proof.
  intros Hobj Hrules Hkeys HF Hnull. unfold GrammarFromJsGrammar.
  rewrite (ObjectGet_object js_grammar "rules" Hobj), bind_ret_l.
  change (c_str "rules") with "rules". rewrite Hrules.
  cbn [IsObject negb GetOwnPropertyNames]. rewrite !bind_ret_l.
  rewrite <- (map_map fst JsString), Hkeys, map_app. cbn [map].
  exact (rules_loop_first_null (JsObject properties) key (map JsString after) events
           eq_refl Hnull before built [] HF).
Qed.

(** C4 (does not hold of the code).  When [rules] is absent or is not an
    object the exception is thrown, but the function does not return: it
    goes on to enumerate the property names of the value through an
    unchecked cast to [Object], which has no defined behaviour. *)
Theorem C4_rules_check_does_not_return :
  GrammarFromJsGrammar (JsObject [("name", JsString "g")])
  = Undefined_behaviour [Throw (TypeError "Expected grammar rules to be an object")]
  /\
  GrammarFromJsGrammar (JsObject [("name", JsString "g"); ("rules", JsString "abc")])
  = Undefined_behaviour [Throw (TypeError "Expected grammar rules to be an object")].
Proof. split; vm_compute; reflexivity. Qed.

(** C5 (does not hold of the code).  An entry whose failure lies in a
    sub-node is not seen to fail: [RuleFromJsRule] returns a non-null rule
    holding a null child, the assembler keeps it and reports success, and
    [Compile] calls the compiler on the resulting grammar. *)
Theorem C5_nested_failure_reaches_compiler :
  GrammarFromJsGrammar description_with_invalid_subnode
  = Returns (MkGrammar [("a", Some Blank); ("b", Some (Repeat None))], true)
      [Throw (TypeError "Expected rule to be an object")]
  /\
  Compile accepting_compile [description_with_invalid_subnode]
  = Returns (JsString "parser for g")
      [Throw (TypeError "Expected rule to be an object");
       CallCompile (MkGrammar [("a", Some Blank); ("b", Some (Repeat None))]) "g"].
Proof. split; vm_compute; reflexivity. Qed.

(** C8.  The description [{name: "g", rules: {start: {type: "STRING",
    value: "x"}}}] is assembled into the grammar with the single rule
    [("start", Str "x")], and [Compile] hands that grammar to the compiler
    under the name ["g"]. *)
Theorem C8_end_to_end_example :
  GrammarFromJsGrammar example_description
  = Returns (MkGrammar [("start", Some (Str "x"))], true) []
  /\
  forall (Conflict GrammarError : Type)
         (compile : Grammar -> string -> string * list Conflict * option GrammarError),
    Compile compile [example_description]
    = Returns (String_New (fst (fst (compile (MkGrammar [("start", Some (Str "x"))]) "g"))))
        [CallCompile (MkGrammar [("start", Some (Str "x"))]) "g"].
Proof.
  split; [vm_compute; reflexivity|].
  intros Conflict GrammarError compile. reflexivity.
Qed.

(** ** Boundary *)

Lemma c_str_without_nul (s : string) :
  ~ In zero (list_ascii_of_string s) -> c_str s = s.
Proof.
  induction s as [|c s IH]; simpl; [reflexivity|].
  intros H. destruct (Ascii.eqb_spec c zero) as [->|_]; [tauto|].
  rewrite IH; [reflexivity|]. tauto.
Qed.

(** When the assembler reports failure, [Compile] returns the undefined
    value and the compiler is not called. *)
Lemma Compile_without_grammar (Conflict GrammarError : Type)
    (compile : Grammar -> string -> string * list Conflict * option GrammarError)
    (args : list JsValue) (name : string) (grammar : Grammar) (events : list Event) :
  IsObject (nth 0 args JsUndefined) = true ->
  property (nth 0 args JsUndefined) "name" = JsString name ->
  GrammarFromJsGrammar (nth 0 args JsUndefined) = Returns (grammar, false) events ->
  Compile compile args = Returns JsUndefined events.
Proof.
  intros Hobj Hname Hgrammar. unfold Compile. cbv zeta.
  rewrite Hobj. cbn [negb].
  rewrite (ObjectGet_object _ "name" Hobj), bind_ret_l.
  change (c_str "name") with "name". rewrite Hname. cbn [IsString negb].
  unfold StringFromJsString. cbn [Utf8Value ToString]. rewrite bind_ret_l.
  rewrite Hgrammar. simpl. rewrite app_nil_r. reflexivity.
Qed.

(** C2, counterexample.  The compiler reports a fatal error next to its
    text; [Compile] does not look at the error and returns the text, not
    the undefined value. *)
Lemma C2_counterexample :
  GrammarFromJsGrammar example_description = Returns (example_grammar, true) []
  /\
  snd (erroring_compile example_grammar "g") = Some "undefined symbol"
  /\
  Compile erroring_compile [example_description]
  = Returns (JsString "incomplete parser") [CallCompile example_grammar "g"]
  /\
  forall events, Compile erroring_compile [example_description] <> Returns JsUndefined events.
Proof.
  assert (E : Compile erroring_compile [example_description]
              = Returns (JsString "incomplete parser") [CallCompile example_grammar "g"])
    by (vm_compute; reflexivity).
  repeat split; try (vm_compute; reflexivity).
  intros events. rewrite E. discriminate.
Qed.

(** C2, as amended.  Once the grammar is assembled, [Compile] calls the
    compiler once, with the grammar and the name, and returns the C string
    of the generated text, whatever error the compiler reports next to it. *)
Theorem C2_generated_text_returned :
  forall (Conflict GrammarError : Type)
         (compile : Grammar -> string -> string * list Conflict * option GrammarError)
         (args : list JsValue) (name : string) (grammar : Grammar) (events : list Event),
    IsObject (nth 0 args JsUndefined) = true ->
    property (nth 0 args JsUndefined) "name" = JsString name ->
    GrammarFromJsGrammar (nth 0 args JsUndefined) = Returns (grammar, true) events ->
    Compile compile args
    = Returns (JsString (c_str (fst (fst (compile grammar (c_str name))))))
        (events ++ [CallCompile grammar (c_str name)]).
Proof.
  intros Conflict GrammarError compile args name grammar events Hobj Hname Hgrammar.
  unfold Compile. cbv zeta.
  rewrite Hobj. cbn [negb].
  rewrite (ObjectGet_object _ "name" Hobj), bind_ret_l.
  change (c_str "name") with "name". rewrite Hname. cbn [IsString negb].
  unfold StringFromJsString. cbn [Utf8Value ToString]. rewrite bind_ret_l.
  rewrite Hgrammar. reflexivity.
Qed.

Lemma C2_generated_text_witness :
  Compile accepting_compile [example_description]
  = Returns (JsString "parser for g") [CallCompile example_grammar "g"]
  /\
  Compile erroring_compile [example_description]
  = Returns (JsString "incomplete parser") [CallCompile example_grammar "g"].
Proof.
  split.
  - apply (C2_generated_text_returned unit string accepting_compile
             [example_description] "g" example_grammar []); reflexivity.
  - apply (C2_generated_text_returned unit string erroring_compile
             [example_description] "g" example_grammar []); reflexivity.
Defined.

(** C9.  The name is checked before anything is read from [rules]: when
    the name is absent or not a string, [Compile] throws the name error and
    returns; nothing else is thrown, the compiler is not called, and the
    outcome is defined whatever the description holds under [rules]. *)
Theorem C9_name_checked_before_rules :
  forall (Conflict GrammarError : Type)
         (compile : Grammar -> string -> string * list Conflict * option GrammarError)
         (args : list JsValue),
    IsObject (nth 0 args JsUndefined) = true ->
    IsString (property (nth 0 args JsUndefined) "name") = false ->
    Compile compile args
    = Returns JsUndefined [Throw (TypeError "Expected grammar name to be a string")].
Proof.
  intros Conflict GrammarError compile args Hobj Hname.
  unfold Compile. cbv zeta.
  rewrite Hobj. cbn [negb].
  rewrite (ObjectGet_object _ "name" Hobj), bind_ret_l.
  change (c_str "name") with "name". rewrite Hname. reflexivity.
Qed.

Lemma C9_name_checked_witness :
  GrammarFromJsGrammar (JsObject [("rules", JsNumber 3)])
  = Undefined_behaviour [Throw (TypeError "Expected grammar rules to be an object")]
  /\
  Compile accepting_compile [JsObject [("rules", JsNumber 3)]]
  = Returns JsUndefined [Throw (TypeError "Expected grammar name to be a string")]
  /\
  Compile accepting_compile
    [JsObject [("name", JsNumber 7);
               ("rules", JsObject [("start", JsObject [("type", JsString "NOPE")])])]]
  = Returns JsUndefined [Throw (TypeError "Expected grammar name to be a string")].
Proof.
  split; [vm_compute; reflexivity|]. split.
  - apply (C9_name_checked_before_rules unit string accepting_compile
             [JsObject [("rules", JsNumber 3)]]); reflexivity.
  - apply (C9_name_checked_before_rules unit string accepting_compile); reflexivity.
Defined.

(** * Further properties of compile.cc *)

(** ** Runs that return *)

Lemma bind_Returns_inv {A B : Type} (m : M A) (k : A -> M B) (b : B)
    (events : list Event) :
  bind m k = Returns b events ->
  exists a e1 e2,
    m = Returns a e1 /\ k a = Returns b e2 /\ events = (e1 ++ e2)%list.
Proof.
  destruct m as [a e1| |]; simpl; try discriminate.
  destruct (k a) as [b' e2| |] eqn:E; try discriminate.
  intros [= <- <-]. exists a, e1, e2. auto.
Qed.

(** The host's reads and the string conversion return without events. *)
Lemma Object_Get_pure (object key v : JsValue) (events : list Event) :
  Object_Get object key = Returns v events ->
  IsObject object = true /\ events = []
  /\ exists k, ToString key = Some k /\ v = property object k.
Proof.
  unfold Object_Get. destruct (IsObject object); [|discriminate].
  destruct (ToString key) as [k|]; [|discriminate].
  intros [= <- <-]. eauto.
Qed.

Lemma Array_Length_pure (array : JsValue) (n : nat) (events : list Event) :
  Array_Length array = Returns n events ->
  events = [] /\ exists elements, array = JsArray elements /\ n = List.length elements.
Proof.
  destruct array as [| | | | |elements|]; try discriminate.
  intros [= <- <-]. eauto.
Qed.

Lemma Array_Get_pure (array v : JsValue) (i : nat) (events : list Event) :
  Array_Get array i = Returns v events ->
  events = [] /\ exists elements, array = JsArray elements /\ v = nth i elements JsUndefined.
Proof.
  destruct array as [| | | | |elements|]; try discriminate.
  intros [= <- <-]. eauto.
Qed.

Lemma StringFromJsString_pure (v : JsValue) (s : string) (events : list Event) :
  StringFromJsString v = Returns s events ->
  events = [] /\ exists text, ToString v = Some text /\ s = c_str text.
Proof.
  unfold StringFromJsString, Utf8Value. destruct (ToString v) as [text|]; [|discriminate].
  intros [= <- <-]. eauto.
Qed.

Lemma ret_inv {A : Type} (a b : A) (events : list Event) :
  ret a = Returns b events -> b = a /\ events = [].
Proof. intros [= <- <-]. auto. Qed.

(** Splits a hypothesis [bind m k = Returns b events] into the run of [m]
    and the run of the continuation. *)
Ltac invert_bind H :=
  let a := fresh "a" in
  let e1 := fresh "e" in
  let e2 := fresh "e" in
  let H1 := fresh "Hrun" in
  apply bind_Returns_inv in H;
  destruct H as (a & e1 & e2 & H1 & H & ->).

(** ** The two structural errors of a node *)

Lemma RuleFromJsRule_not_object (js_rule : JsValue) :
  IsObject js_rule = false ->
  RuleFromJsRule js_rule
  = Returns None [Throw (TypeError "Expected rule to be an object")].
Proof.
  intros Hobj. rewrite RuleFromJsRule_unfold. unfold RuleFromJsRule_body.
  rewrite Hobj. reflexivity.
Qed.

Lemma RuleFromJsRule_type_not_string (js_rule : JsValue) :
  IsObject js_rule = true ->
  IsString (property js_rule "type") = false ->
  RuleFromJsRule js_rule
  = Returns None [Throw (TypeError "Expected rule type to be a string")].
Proof.
  intros Hobj Htype. rewrite RuleFromJsRule_unfold. unfold RuleFromJsRule_body.
  rewrite Hobj. cbn [negb]. read_property js_rule "type" Hobj.
  rewrite Htype. reflexivity.
Qed.

(** ** Exceptions and null pointers *)

Lemma null_count_rule_Choice (elements : list rule_ptr) :
  null_count_rule (Choice elements) = list_sum (map null_count elements).
Proof.
  simpl. induction elements as [|p rest IH]; simpl; [reflexivity|].
  rewrite IH. reflexivity.
Qed.

Lemma null_count_rule_Seq (elements : list rule_ptr) :
  null_count_rule (Seq elements) = list_sum (map null_count elements).
Proof.
  simpl. induction elements as [|p rest IH]; simpl; [reflexivity|].
  rewrite IH. reflexivity.
Qed.

Lemma members_loop_counted (f : JsValue -> M rule_ptr) (js_members : JsValue) :
  (forall w rule events,
      depth w < depth js_members -> f w = Returns rule events -> counted rule events) ->
  forall count i members result events,
    members_loop f js_members i count members = Returns result events ->
    List.length events + list_sum (map null_count members)
    = list_sum (map null_count result)
    /\ Forall rule_error events.
Proof.
  intros Hf. induction count as [|count IH]; intros i members result events H.
  - apply ret_inv in H as [-> ->]. simpl. auto.
  - cbn [members_loop] in H. invert_bind H. invert_bind H.
    pose proof Hrun as Hdepth. apply depth_Array_Get in Hdepth.
    apply Array_Get_pure in Hrun as [-> _].
    destruct (Hf _ _ _ Hdepth Hrun0) as [Hlen Herr].
    destruct (IH _ _ _ _ H) as [Hsum Hrest].
    rewrite map_app, list_sum_app in Hsum. simpl in Hsum. split.
    + simpl. rewrite length_app. lia.
    + simpl. apply Forall_app. auto.
Qed.

Lemma RuleFromJsRule_counted_below (n : nat) :
  forall js_rule rule events,
    depth js_rule < n ->
    RuleFromJsRule js_rule = Returns rule events ->
    counted rule events.
Proof.
  induction n as [|n IH]; intros js_rule rule events Hn H; [lia|].
  assert (Hsub : forall w rule events,
             depth w < depth js_rule ->
             RuleFromJsRule w = Returns rule events -> counted rule events)
    by (intros w r e Hw; apply IH; lia).
  destruct (IsObject js_rule) eqn:Hobj.
  2: { rewrite (RuleFromJsRule_not_object _ Hobj) in H.
       injection H as <- <-. split; [reflexivity|].
       repeat constructor. }
  destruct (IsString (property js_rule "type")) eqn:Hstr.
  2: { rewrite (RuleFromJsRule_type_not_string _ Hobj Hstr) in H.
       injection H as <- <-. split; [reflexivity|].
       constructor; [right; left; reflexivity|constructor]. }
  destruct (property js_rule "type") as [| | | |tag| |] eqn:Htype; try discriminate.
  rewrite (RuleFromJsRule_typed _ _ Hobj Htype) in H.
  unfold StringFromJsString at 1 in H. cbn [Utf8Value ToString] in H.
  rewrite bind_ret_l in H.
  repeat match type of H with
         | (if ?b then _ else _) = _ => destruct b
         end.
  - apply ret_inv in H as [-> ->]. split; [reflexivity|constructor].
  - invert_bind H. invert_bind H. invert_bind H. apply ret_inv in H as [-> ->].
    unfold ObjectGet in Hrun. pose proof (depth_Object_Get _ _ _ _ Hrun) as Hd.
    apply Object_Get_pure in Hrun as (_ & -> & _).
    apply Array_Length_pure in Hrun0 as (-> & _).
    apply (members_loop_counted RuleFromJsRule a) in Hrun1 as [Hsum Herr].
    + split; [|simpl; rewrite app_nil_r; exact Herr].
      simpl app. rewrite app_nil_r. unfold choice, null_count.
      rewrite null_count_rule_Choice. simpl in Hsum. lia.
    + intros w r e Hw. apply Hsub. lia.
  - invert_bind H. invert_bind H. apply ret_inv in H as [-> ->].
    unfold ObjectGet in Hrun. pose proof (depth_Object_Get _ _ _ _ Hrun) as Hd.
    apply Object_Get_pure in Hrun as (_ & -> & _).
    destruct (Hsub _ _ _ Hd Hrun0) as [Hlen Herr].
    simpl app. rewrite app_nil_r. split; [|exact Herr].
    rewrite Hlen. destruct a0; reflexivity.
  - invert_bind H. invert_bind H. apply ret_inv in H as [-> ->].
    unfold ObjectGet in Hrun. apply Object_Get_pure in Hrun as (_ & -> & _).
    apply StringFromJsString_pure in Hrun0 as (-> & _).
    split; [reflexivity|constructor].
  - invert_bind H. invert_bind H. apply ret_inv in H as [-> ->].
    unfold ObjectGet in Hrun. pose proof (depth_Object_Get _ _ _ _ Hrun) as Hd.
    apply Object_Get_pure in Hrun as (_ & -> & _).
    destruct (Hsub _ _ _ Hd Hrun0) as [Hlen Herr].
    simpl app. rewrite app_nil_r. split; [|exact Herr].
    rewrite Hlen. destruct a0; reflexivity.
  - invert_bind H. invert_bind H. invert_bind H. apply ret_inv in H as [-> ->].
    unfold ObjectGet in Hrun. pose proof (depth_Object_Get _ _ _ _ Hrun) as Hd.
    apply Object_Get_pure in Hrun as (_ & -> & _).
    apply Array_Length_pure in Hrun0 as (-> & _).
    apply (members_loop_counted RuleFromJsRule a) in Hrun1 as [Hsum Herr].
    + split; [|simpl; rewrite app_nil_r; exact Herr].
      simpl app. rewrite app_nil_r. unfold seq, null_count.
      rewrite null_count_rule_Seq. simpl in Hsum. lia.
    + intros w r e Hw. apply Hsub. lia.
  - invert_bind H. invert_bind H. apply ret_inv in H as [-> ->].
    unfold ObjectGet in Hrun. apply Object_Get_pure in Hrun as (_ & -> & _).
    apply StringFromJsString_pure in Hrun0 as (-> & _).
    split; [reflexivity|constructor].
  - invert_bind H. invert_bind H. apply ret_inv in H as [-> ->].
    unfold ObjectGet in Hrun. apply Object_Get_pure in Hrun as (_ & -> & _).
    apply StringFromJsString_pure in Hrun0 as (-> & _).
    split; [reflexivity|constructor].
  - simpl in H. injection H as <- <-. split; [reflexivity|].
    constructor; [right; right; exists tag; reflexivity|constructor].
Qed.

Lemma RuleFromJsRule_counted (js_rule : JsValue) (rule : rule_ptr) (events : list Event) :
  RuleFromJsRule js_rule = Returns rule events -> counted rule events.
Proof. apply (RuleFromJsRule_counted_below (S (depth js_rule))). lia. Qed.

(** X2.  Whenever [RuleFromJsRule] returns, it has thrown exactly one
    exception for each null pointer of what it returns (the result itself
    when it is null, and every null child inside it).  In particular it has
    thrown nothing exactly when the result is a rule without any null
    pointer. *)
Theorem RuleFromJsRule_one_exception_per_null :
  forall js_rule rule events,
    RuleFromJsRule js_rule = Returns rule events ->
    List.length events = null_count rule
    /\ (events = [] <-> exists r, rule = Some r /\ null_count_rule r = 0).
Proof.
  intros js_rule rule events H.
  destruct (RuleFromJsRule_counted _ _ _ H) as [Hlen _].
  split; [exact Hlen|]. split.
  - intros ->. destruct rule as [r|]; [|discriminate Hlen].
    exists r. split; [reflexivity|]. simpl in Hlen. lia.
  - intros (r & -> & Hr). simpl in Hlen. rewrite Hr in Hlen.
    destruct events; [reflexivity|discriminate Hlen].
Qed.

Lemma RuleFromJsRule_one_exception_per_null_witness :
  List.length [Throw (TypeError "Expected rule to be an object");
               Throw (TypeError "Unexpected rule type: NOPE")]
  = null_count (Some (Seq [None; Some (Str "a"); Some (Repeat None)]))
  /\
  ([Throw (TypeError "Expected rule to be an object");
    Throw (TypeError "Unexpected rule type: NOPE")] = []
   <-> exists r, Some (Seq [None; Some (Str "a"); Some (Repeat None)]) = Some r
                 /\ null_count_rule r = 0).
Proof.
  apply (RuleFromJsRule_one_exception_per_null
           (members_node "SEQ"
              [JsNumber 5; value_node "STRING" (JsString "a");
               value_node "REPEAT" (JsObject [("type", JsString "NOPE")])])).
  vm_compute. reflexivity.
Defined.

Lemma rule_errors_no_call (events : list Event) :
  Forall rule_error events -> compile_calls events = [].
Proof.
  induction 1 as [|e events He _ IH]; [reflexivity|].
  destruct He as [->|[->|[type ->]]]; exact IH.
Qed.

(** The events of a run of [bind]: those of the first run, then those of
    the continuation. *)
Lemma bind_events {A B : Type} (P : Event -> Prop) (m : M A) (k : A -> M B) :
  Forall P (events_of m) ->
  (forall a events, m = Returns a events -> Forall P (events_of (k a))) ->
  Forall P (events_of (bind m k)).
Proof.
  intros Hm Hk. destruct m as [a events|events|]; simpl in *; [|exact Hm|constructor].
  specialize (Hk a events eq_refl).
  destruct (k a) as [b events'|events'|]; simpl in *;
    [apply Forall_app; auto|apply Forall_app; auto|constructor].
Qed.

Lemma Object_Get_events (P : Event -> Prop) (object key : JsValue) :
  Forall P (events_of (Object_Get object key)).
Proof.
  unfold Object_Get. destruct (IsObject object); [|constructor].
  destruct (ToString key); constructor.
Qed.

Lemma Array_Get_events (P : Event -> Prop) (array : JsValue) (i : nat) :
  Forall P (events_of (Array_Get array i)).
Proof. destruct array; constructor. Qed.

Lemma Array_Length_events (P : Event -> Prop) (array : JsValue) :
  Forall P (events_of (Array_Length array)).
Proof. destruct array; constructor. Qed.

Lemma StringFromJsString_events (P : Event -> Prop) (v : JsValue) :
  Forall P (events_of (StringFromJsString v)).
Proof. unfold StringFromJsString. destruct (Utf8Value v); constructor. Qed.

Lemma members_loop_events (P : Event -> Prop) (f : JsValue -> M rule_ptr)
    (js_members : JsValue) :
  (forall w, Forall P (events_of (f w))) ->
  forall count i members, Forall P (events_of (members_loop f js_members i count members)).
Proof.
  intros Hf. induction count as [|count IH]; intros i members; simpl; [constructor|].
  apply bind_events; [apply Array_Get_events|]. intros js_member ev _.
  apply bind_events; [apply Hf|]. intros rule ev' _. apply IH.
Qed.

Lemma RuleFromJsRule_body_events (f : JsValue -> M rule_ptr) (js_rule : JsValue) :
  (forall w, Forall rule_error (events_of (f w))) ->
  Forall rule_error (events_of (RuleFromJsRule_body f js_rule)).
Proof.
  intros Hf. unfold RuleFromJsRule_body.
  destruct (negb (IsObject js_rule)).
  { simpl. constructor; [left; reflexivity|constructor]. }
  apply bind_events; [apply Object_Get_events|]. intros js_type ev _.
  destruct (negb (IsString js_type)).
  { simpl. constructor; [right; left; reflexivity|constructor]. }
  apply bind_events; [apply StringFromJsString_events|]. intros type ev' _.
  repeat match goal with
         | |- Forall _ (events_of (if ?b then _ else _)) => destruct b
         end.
  - constructor.
  - apply bind_events; [apply Object_Get_events|]. intros js_members e1 _.
    apply bind_events; [apply Array_Length_events|]. intros length e2 _.
    apply bind_events; [now apply members_loop_events|]. intros members e3 _.
    constructor.
  - apply bind_events; [apply Object_Get_events|]. intros js_value e1 _.
    apply bind_events; [apply Hf|]. intros rule e2 _. constructor.
  - apply bind_events; [apply Object_Get_events|]. intros js_value e1 _.
    apply bind_events; [apply StringFromJsString_events|]. intros value e2 _.
    constructor.
  - apply bind_events; [apply Object_Get_events|]. intros js_value e1 _.
    apply bind_events; [apply Hf|]. intros rule e2 _. constructor.
  - apply bind_events; [apply Object_Get_events|]. intros js_members e1 _.
    apply bind_events; [apply Array_Length_events|]. intros length e2 _.
    apply bind_events; [now apply members_loop_events|]. intros members e3 _.
    constructor.
  - apply bind_events; [apply Object_Get_events|]. intros js_value e1 _.
    apply bind_events; [apply StringFromJsString_events|]. intros value e2 _.
    constructor.
  - apply bind_events; [apply Object_Get_events|]. intros js_name e1 _.
    apply bind_events; [apply StringFromJsString_events|]. intros name e2 _.
    constructor.
  - destruct js_type as [| | | |s| |]; simpl; try constructor.
    + right. right. exists s. reflexivity.
    + constructor.
Qed.

Lemma RuleFromJsRule_events (js_rule : JsValue) :
  Forall rule_error (events_of (RuleFromJsRule js_rule)).
Proof.
  unfold RuleFromJsRule. generalize (S (depth js_rule)) as fuel. intros fuel.
  revert js_rule. induction fuel as [|fuel IH]; intros js_rule; simpl; [constructor|].
  now apply RuleFromJsRule_body_events.
Qed.

(** X3.  In every run of [RuleFromJsRule], whether it returns or comes to
    an operation that has no defined behaviour, the exceptions thrown up to
    that point are among its three TypeErrors (rule not an object, type not
    a string, unexpected type), and the compiler has not been called. *)
Theorem RuleFromJsRule_throws_only_rule_errors :
  forall js_rule,
    (forall rule events,
        RuleFromJsRule js_rule = Returns rule events ->
        Forall rule_error events /\ compile_calls events = [])
    /\
    (forall events,
        RuleFromJsRule js_rule = Undefined_behaviour events ->
        Forall rule_error events /\ compile_calls events = []).
Proof.
  intros js_rule. pose proof (RuleFromJsRule_events js_rule) as H.
  split; [intros rule events E|intros events E]; rewrite E in H; simpl in H;
    (split; [exact H|now apply rule_errors_no_call]).
Qed.

Lemma RuleFromJsRule_throws_only_rule_errors_witness :
  (Forall rule_error [Throw (TypeError "Expected rule type to be a string");
                      Throw (TypeError "Unexpected rule type: NOPE")]
   /\ compile_calls [Throw (TypeError "Expected rule type to be a string");
                     Throw (TypeError "Unexpected rule type: NOPE")] = [])
  /\
  (Forall rule_error [Throw (TypeError "Expected rule to be an object")]
   /\ compile_calls [Throw (TypeError "Expected rule to be an object")] = []).
Proof.
  split.
  - apply (proj1 (RuleFromJsRule_throws_only_rule_errors
                    (members_node "CHOICE"
                       [JsObject [("type", JsNumber 1)];
                        JsObject [("type", JsString "NOPE")]]))
             (Some (Choice [None; None]))).
    vm_compute. reflexivity.
  - apply (proj2 (RuleFromJsRule_throws_only_rule_errors
                    (members_node "SEQ"
                       [JsNumber 5; JsObject [("type", JsString "CHOICE")]]))).
    vm_compute. reflexivity.
Defined.

Lemma RuleFromJsRule_known_type_not_null (js_rule : JsValue) (tag : string) :
  IsObject js_rule = true ->
  property js_rule "type" = JsString tag ->
  In (c_str tag)
    ["BLANK"; "CHOICE"; "ERROR"; "PATTERN"; "REPEAT"; "SEQ"; "STRING"; "SYMBOL"] ->
  forall rule events, RuleFromJsRule js_rule = Returns rule events -> rule <> None.
Proof.
  intros Hobj Htype Htag.
  assert (Hret : forall (r : Rule) (rule : rule_ptr) (events : list Event),
             ret (Some r) = Returns rule events -> rule <> None)
    by (intros r rule events [= <- _]; discriminate).
  rewrite (RuleFromJsRule_typed _ _ Hobj Htype).
  unfold StringFromJsString at 1. cbn [Utf8Value ToString]. rewrite bind_ret_l.
  simpl in Htag.
  repeat (destruct Htag as [Htag|Htag];
          [rewrite <- Htag; cbv iota beta delta [String.eqb Ascii.eqb Bool.eqb];
           repeat (apply bind_result; intros ?); apply Hret|]).
  destruct Htag.
Qed.

(** X4.  [RuleFromJsRule] returns the null rule exactly when the node
    itself is malformed: it is not an object, its type is not a string, or
    the C string of its type is none of the eight tags.  It has then thrown
    the one matching TypeError and nothing else; the last one carries the
    whole type string. *)
Theorem RuleFromJsRule_null_iff_node_malformed :
  forall js_rule events,
    RuleFromJsRule js_rule = Returns None events
    <->
    (IsObject js_rule = false
     /\ events = [Throw (TypeError "Expected rule to be an object")])
    \/
    (IsObject js_rule = true
     /\ IsString (property js_rule "type") = false
     /\ events = [Throw (TypeError "Expected rule type to be a string")])
    \/
    (IsObject js_rule = true
     /\ exists type,
         property js_rule "type" = JsString type
         /\ ~ In (c_str type)
              ["BLANK"; "CHOICE"; "ERROR"; "PATTERN"; "REPEAT"; "SEQ"; "STRING"; "SYMBOL"]
         /\ events = [Throw (TypeError ("Unexpected rule type: " ++ type))]).
Proof.
  intros js_rule events. split.
  - intros H. destruct (IsObject js_rule) eqn:Hobj.
    2: { left. rewrite (RuleFromJsRule_not_object _ Hobj) in H.
         injection H as <-. auto. }
    destruct (IsString (property js_rule "type")) eqn:Hstr.
    2: { right. left. rewrite (RuleFromJsRule_type_not_string _ Hobj Hstr) in H.
         injection H as <-. auto. }
    destruct (property js_rule "type") as [| | | |type| |] eqn:Htype; try discriminate.
    right. right. split; [reflexivity|]. exists type. split; [reflexivity|].
    destruct (in_dec string_dec (c_str type)
                ["BLANK"; "CHOICE"; "ERROR"; "PATTERN"; "REPEAT"; "SEQ"; "STRING"; "SYMBOL"])
      as [Hin|Hnot].
    + exfalso.
      exact (RuleFromJsRule_known_type_not_null _ _ Hobj Htype Hin _ _ H eq_refl).
    + split; [exact Hnot|].
      rewrite (RuleFromJsRule_unknown_type _ _ Hobj Htype Hnot) in H.
      injection H as <-. reflexivity.
  - intros [[Hobj ->]|[(Hobj & Hstr & ->)|(Hobj & type & Htype & Hnot & ->)]].
    + now apply RuleFromJsRule_not_object.
    + now apply RuleFromJsRule_type_not_string.
    + now apply RuleFromJsRule_unknown_type.
Qed.

(** ** Children and members *)

(** The loop pushes what each member's build returns, null included, and
    its events follow in the order of the array. *)
Lemma members_loop_returns (f : JsValue -> M rule_ptr) (rest : list JsValue) :
  forall (runs : list (rule_ptr * list Event)) (done : list JsValue)
         (members : list rule_ptr),
    Forall2 (fun js_member run => f js_member = Returns (fst run) (snd run)) rest runs ->
    members_loop f (JsArray (done ++ rest)) (List.length done) (List.length rest) members
    = Returns (members ++ map fst runs)%list (concat (map snd runs)).
Proof.
  induction rest as [|js_member rest IH]; intros runs done members HF.
  - inversion HF; subst. simpl. rewrite app_nil_r. reflexivity.
  - inversion HF as [|? run ? runs' Hf HF']; subst.
    cbn [members_loop List.length]. unfold ArrayGet, Array_Get.
    rewrite nth_middle, bind_ret_l, Hf.
    replace (done ++ js_member :: rest)%list with ((done ++ [js_member]) ++ rest)%list
      by (rewrite <- app_assoc; reflexivity).
    replace (S (List.length done)) with (List.length (done ++ [js_member])%list)
      by (rewrite length_app; simpl; lia).
    erewrite bind_Returns by (apply IH; exact HF').
    cbn [map concat]. rewrite <- app_assoc. reflexivity.
Qed.

Lemma members_returns (mk : list rule_ptr -> rule_ptr) (js_rule : JsValue)
    (js_members : list JsValue) (runs : list (rule_ptr * list Event)) :
  IsObject js_rule = true ->
  property js_rule "members" = JsArray js_members ->
  Forall2 (fun js_member run => RuleFromJsRule js_member = Returns (fst run) (snd run))
    js_members runs ->
  (js_members <- ObjectGet js_rule "members" ;;
   length <- Array_Length js_members ;;
   members <- members_loop RuleFromJsRule js_members 0 length [] ;;
   ret (mk members))
  = Returns (mk (map fst runs)) (concat (map snd runs)).
Proof.
  intros Hobj Hmembers HF.
  read_property js_rule "members" Hobj. rewrite Hmembers.
  unfold Array_Length. rewrite bind_ret_l.
  pose proof (members_loop_returns RuleFromJsRule js_members runs [] [] HF) as E.
  cbn [app List.length] in E. rewrite E. simpl. rewrite app_nil_r. reflexivity.
Qed.

(** X5.  A CHOICE or SEQ node whose [members] is an array gets one child
    for each member, in order: the child is whatever building that member
    returned, the null rule of a failed member included, and the exceptions
    thrown are those of the members in the same order.  The node itself
    throws nothing and is never null. *)
Theorem RuleFromJsRule_children_follow_members :
  forall js_rule js_members (runs : list (rule_ptr * list Event)),
    IsObject js_rule = true ->
    property js_rule "members" = JsArray js_members ->
    Forall2 (fun js_member run => RuleFromJsRule js_member = Returns (fst run) (snd run))
      js_members runs ->
    (property js_rule "type" = JsString "CHOICE" ->
     RuleFromJsRule js_rule
     = Returns (Some (Choice (map fst runs))) (concat (map snd runs)))
    /\
    (property js_rule "type" = JsString "SEQ" ->
     RuleFromJsRule js_rule
     = Returns (Some (Seq (map fst runs))) (concat (map snd runs))).
Proof.
  intros js_rule js_members runs Hobj Hmembers HF. split; intros Htype.
  - dispatch_on_type Hobj Htype.
    exact (members_returns choice js_rule js_members runs Hobj Hmembers HF).
  - dispatch_on_type Hobj Htype.
    exact (members_returns seq js_rule js_members runs Hobj Hmembers HF).
Qed.

Lemma RuleFromJsRule_children_follow_members_witness :
  RuleFromJsRule
    (members_node "CHOICE"
       [JsObject [("type", JsString "BLANK")]; JsNull;
        symbol_node (JsString "b"); JsObject [("type", JsString "NOPE")]])
  = Returns (Some (Choice [Some Blank; None; Some (Sym "b"); None]))
      [Throw (TypeError "Expected rule to be an object");
       Throw (TypeError "Unexpected rule type: NOPE")].
Proof.
  apply (RuleFromJsRule_children_follow_members
           (members_node "CHOICE"
              [JsObject [("type", JsString "BLANK")]; JsNull;
               symbol_node (JsString "b"); JsObject [("type", JsString "NOPE")]])
           [JsObject [("type", JsString "BLANK")]; JsNull;
            symbol_node (JsString "b"); JsObject [("type", JsString "NOPE")]]
           [(Some Blank, []);
            (None, [Throw (TypeError "Expected rule to be an object")]);
            (Some (Sym "b"), []);
            (None, [Throw (TypeError "Unexpected rule type: NOPE")])]);
    try reflexivity.
  repeat constructor.
Defined.

(** X6.  An ERROR or REPEAT node wraps whatever building its [value]
    returns, the null rule included, and throws what that build threw; when
    that build has no defined behaviour, neither has the node.  An absent
    [value] is built like any value that is not an object, so the node is
    then [Err] or [Repeat] of the null rule. *)
Theorem RuleFromJsRule_wraps_value :
  forall js_rule type (wrap : rule_ptr -> Rule),
    IsObject js_rule = true ->
    property js_rule "type" = JsString type ->
    (type = "ERROR" /\ wrap = Err) \/ (type = "REPEAT" /\ wrap = Repeat) ->
    (forall rule events,
        RuleFromJsRule (property js_rule "value") = Returns rule events ->
        RuleFromJsRule js_rule = Returns (Some (wrap rule)) events)
    /\
    (forall events,
        RuleFromJsRule (property js_rule "value") = Undefined_behaviour events ->
        RuleFromJsRule js_rule = Undefined_behaviour events)
    /\
    (property js_rule "value" = JsUndefined ->
     RuleFromJsRule js_rule
     = Returns (Some (wrap None)) [Throw (TypeError "Expected rule to be an object")]).
Proof.
  intros js_rule type wrap Hobj Htype Hcase.
  assert (E : RuleFromJsRule js_rule
              = (rule <- RuleFromJsRule (property js_rule "value") ;;
                 ret (Some (wrap rule)))).
  { destruct Hcase as [[-> ->]|[-> ->]];
      dispatch_on_type Hobj Htype; read_property js_rule "value" Hobj; reflexivity. }
  rewrite E. repeat split.
  - intros rule events ->. simpl. rewrite app_nil_r. reflexivity.
  - intros events ->. reflexivity.
  - intros ->. reflexivity.
Qed.

Lemma RuleFromJsRule_wraps_value_witness :
  RuleFromJsRule (JsObject [("type", JsString "ERROR")])
  = Returns (Some (Err None)) [Throw (TypeError "Expected rule to be an object")]
  /\
  RuleFromJsRule (value_node "REPEAT" (JsObject [("type", JsString "CHOICE")]))
  = Undefined_behaviour []
  /\
  RuleFromJsRule (value_node "REPEAT" (symbol_node (JsString "x")))
  = Returns (Some (Repeat (Some (Sym "x")))) [].
Proof.
  split; [|split].
  - apply (RuleFromJsRule_wraps_value (JsObject [("type", JsString "ERROR")]) "ERROR" Err
             eq_refl eq_refl (or_introl (conj eq_refl eq_refl))).
    reflexivity.
  - apply (RuleFromJsRule_wraps_value
             (value_node "REPEAT" (JsObject [("type", JsString "CHOICE")])) "REPEAT" Repeat
             eq_refl eq_refl (or_intror (conj eq_refl eq_refl))).
    reflexivity.
  - apply (RuleFromJsRule_wraps_value
             (value_node "REPEAT" (symbol_node (JsString "x"))) "REPEAT" Repeat
             eq_refl eq_refl (or_intror (conj eq_refl eq_refl))).
    reflexivity.
Defined.

Lemma members_loop_undefined (f : JsValue -> M rule_ptr) (rest : list JsValue) :
  (forall w, f w <> Out_of_fuel) ->
  forall (done : list JsValue) (members : list rule_ptr),
    (exists js_member events, In js_member rest /\ f js_member = Undefined_behaviour events) ->
    exists events,
      members_loop f (JsArray (done ++ rest)) (List.length done) (List.length rest) members
      = Undefined_behaviour events.
Proof.
  intros Htotal. induction rest as [|first rest IH]; intros done members (m & e & Hin & Hm).
  - destruct Hin.
  - cbn [members_loop List.length]. unfold ArrayGet, Array_Get.
    rewrite nth_middle, bind_ret_l.
    destruct (f first) as [rule ev|ev|] eqn:Hfirst.
    + destruct Hin as [->|Hin]; [congruence|].
      destruct (IH (done ++ [first])%list (members ++ [rule])%list) as [e' He'];
        [exists m, e; auto|].
      rewrite <- app_assoc, length_app in He'. simpl in He'.
      rewrite Nat.add_1_r in He'.
      exists (ev ++ e')%list. unfold bind. rewrite He'. reflexivity.
    + exists ev. reflexivity.
    + destruct (Htotal first Hfirst).
Qed.

(** X7.  Undefined behaviour below a CHOICE or SEQ node is undefined
    behaviour of the node: if building any one of its members has no
    defined behaviour, building the node has none either, whatever the
    other members are. *)
Theorem RuleFromJsRule_undefined_member :
  forall js_rule type js_members,
    IsObject js_rule = true ->
    property js_rule "type" = JsString type ->
    type = "CHOICE" \/ type = "SEQ" ->
    property js_rule "members" = JsArray js_members ->
    (exists js_member events,
        In js_member js_members /\ RuleFromJsRule js_member = Undefined_behaviour events) ->
    exists events, RuleFromJsRule js_rule = Undefined_behaviour events.
Proof.
  intros js_rule type js_members Hobj Htype Hcase Hmembers Hbad.
  destruct (members_loop_undefined RuleFromJsRule js_members RuleFromJsRule_total [] [] Hbad)
    as [events Hloop].
  cbn [app List.length] in Hloop. exists events.
  destruct Hcase as [-> | ->];
    dispatch_on_type Hobj Htype; read_property js_rule "members" Hobj;
    rewrite Hmembers; unfold Array_Length; rewrite bind_ret_l, Hloop; reflexivity.
Qed.

Lemma RuleFromJsRule_undefined_member_witness :
  exists events,
    RuleFromJsRule
      (members_node "SEQ"
         [value_node "STRING" (JsString "a"); JsObject [("type", JsString "CHOICE")];
          JsNumber 1])
    = Undefined_behaviour events.
Proof.
  apply (RuleFromJsRule_undefined_member
           (members_node "SEQ"
              [value_node "STRING" (JsString "a"); JsObject [("type", JsString "CHOICE")];
               JsNumber 1])
           "SEQ"
           [value_node "STRING" (JsString "a"); JsObject [("type", JsString "CHOICE")];
            JsNumber 1]
           eq_refl eq_refl (or_intror eq_refl) eq_refl).
  exists (JsObject [("type", JsString "CHOICE")]), [].
  split; [right; left; reflexivity|vm_compute; reflexivity].
Defined.

(** ** Strings *)

Lemma c_str_nul_free (s : string) : nul_free (c_str s) = true.
Proof.
  induction s as [|c s IH]; simpl; [reflexivity|].
  destruct (Ascii.eqb c zero) eqn:E; simpl; [reflexivity|].
  rewrite E, IH. reflexivity.
Qed.

Lemma c_str_of_nul_free (s : string) : nul_free s = true -> c_str s = s.
Proof.
  induction s as [|c s IH]; simpl; [reflexivity|].
  destruct (Ascii.eqb c zero); simpl; [discriminate|].
  intros H. rewrite (IH H). reflexivity.
Qed.

Lemma c_str_cut (s : string) :
  s = c_str s \/ exists rest, s = c_str s ++ String zero rest.
Proof.
  induction s as [|c s IH]; simpl; [left; reflexivity|].
  destruct (Ascii.eqb_spec c zero) as [->|_].
  - right. exists s. reflexivity.
  - destruct IH as [IH|[rest IH]].
    + left. rewrite <- IH. reflexivity.
    + right. exists rest. simpl. rewrite <- IH. reflexivity.
Qed.

(** X8.  [StringFromJsString] on a string returns its text up to the first
    NUL character and throws nothing: the result holds no NUL, the string
    is either the result itself or the result followed by a NUL and a
    remainder that is dropped, and the result is the whole string exactly
    when the string holds no NUL. *)
Theorem StringFromJsString_cuts_at_nul :
  forall s,
    exists text,
      StringFromJsString (JsString s) = Returns text []
      /\ nul_free text = true
      /\ (s = text \/ exists rest, s = text ++ String zero rest)
      /\ (text = s <-> nul_free s = true).
Proof.
  intros s. exists (c_str s). repeat split.
  - apply c_str_nul_free.
  - apply c_str_cut.
  - intros E. rewrite <- E. apply c_str_nul_free.
  - apply c_str_of_nul_free.
Qed.

(** ** What is read of a node *)

(** X9.  [RuleFromJsRule] reads four properties of a node and nothing
    else: two objects that agree on [type], [members], [value] and [name]
    are built alike, whatever other properties they carry. *)
Theorem RuleFromJsRule_reads_four_properties :
  forall js_rule js_rule',
    IsObject js_rule = true ->
    IsObject js_rule' = true ->
    property js_rule "type" = property js_rule' "type" ->
    property js_rule "members" = property js_rule' "members" ->
    property js_rule "value" = property js_rule' "value" ->
    property js_rule "name" = property js_rule' "name" ->
    RuleFromJsRule js_rule = RuleFromJsRule js_rule'.
Proof.
  intros a b Ha Hb Htype Hmembers Hvalue Hname.
  destruct (IsString (property a "type")) eqn:Hstr.
  2: { rewrite (RuleFromJsRule_type_not_string a Ha Hstr).
       rewrite Htype in Hstr.
       rewrite (RuleFromJsRule_type_not_string b Hb Hstr). reflexivity. }
  destruct (property a "type") as [| | | |type| |] eqn:Ea; try discriminate.
  symmetry in Htype.
  rewrite (RuleFromJsRule_typed a type Ha Ea), (RuleFromJsRule_typed b type Hb Htype).
  rewrite !(ObjectGet_object a), !(ObjectGet_object b) by assumption.
  change (c_str "members") with "members".
  change (c_str "value") with "value".
  change (c_str "name") with "name".
  rewrite Hmembers, Hvalue, Hname. reflexivity.
Qed.

Lemma RuleFromJsRule_reads_four_properties_witness :
  RuleFromJsRule
    (JsObject [("comment", JsString "digits"); ("type", JsString "PATTERN");
               ("value", JsString "\d+"); ("members", JsNumber 0)])
  = RuleFromJsRule
      (JsObject [("type", JsString "PATTERN"); ("members", JsNumber 0);
                 ("value", JsString "\d+"); ("flags", JsArray [])]).
Proof.
  apply RuleFromJsRule_reads_four_properties; reflexivity.
Defined.

(** ** Building the description of a rule *)

Lemma Rule_nested_ind (P : Rule -> Prop) :
  P Blank ->
  (forall elements, Forall (fun p => forall r, p = Some r -> P r) elements ->
                    P (Choice elements)) ->
  (forall content, (forall r, content = Some r -> P r) -> P (Err content)) ->
  (forall value, P (Pattern value)) ->
  (forall content, (forall r, content = Some r -> P r) -> P (Repeat content)) ->
  (forall elements, Forall (fun p => forall r, p = Some r -> P r) elements ->
                    P (Seq elements)) ->
  (forall value, P (Str value)) ->
  (forall name, P (Sym name)) ->
  forall rule, P rule.
Proof.
  intros HBlank HChoice HErr HPattern HRepeat HSeq HStr HSym.
  fix IH 1. intros [|elements|content|value|content|elements|value|name].
  - exact HBlank.
  - apply HChoice. induction elements as [|[r|] rest IHrest]; constructor;
      try exact IHrest; intros r' E; [injection E as <-; apply IH|discriminate E].
  - apply HErr. destruct content as [r|]; intros r' E;
      [injection E as <-; apply IH|discriminate E].
  - apply HPattern.
  - apply HRepeat. destruct content as [r|]; intros r' E;
      [injection E as <-; apply IH|discriminate E].
  - apply HSeq. induction elements as [|[r|] rest IHrest]; constructor;
      try exact IHrest; intros r' E; [injection E as <-; apply IH|discriminate E].
  - apply HStr.
  - apply HSym.
Qed.

Lemma valid_elements (elements : list rule_ptr) :
  (forall P : Rule -> Prop,
      Forall (fun p => forall r, p = Some r -> valid_rule r = true -> P r) elements ->
      valid_rule (Choice elements) = true ->
      exists built, elements = map Some built /\ Forall P built).
Proof.
  intros P HF. induction HF as [|p rest Hp _ IH]; intros Hvalid.
  - exists []. split; [reflexivity|constructor].
  - simpl in Hvalid. destruct p as [r|]; [|discriminate Hvalid].
    apply andb_prop in Hvalid as [Hr Hrest].
    destruct (IH Hrest) as (built & -> & Hbuilt).
    exists (r :: built). split; [reflexivity|].
    constructor; [exact (Hp r eq_refl Hr)|exact Hbuilt].
Qed.

Lemma described_members (built : list Rule) :
  Forall (fun r => RuleFromJsRule (JsRuleFromRule r) = Returns (Some r) []) built ->
  Forall2 (fun js_member rule => RuleFromJsRule js_member = Returns (Some rule) [])
    (map JsRuleFromRule built) built.
Proof. induction 1; constructor; assumption. Qed.

Lemma JsRuleFromRule_Choice (built : list Rule) :
  JsRuleFromRule (Choice (map Some built))
  = members_node "CHOICE" (map JsRuleFromRule built).
Proof. simpl. rewrite map_map. reflexivity. Qed.

Lemma JsRuleFromRule_Seq (built : list Rule) :
  JsRuleFromRule (Seq (map Some built))
  = members_node "SEQ" (map JsRuleFromRule built).
Proof. simpl. rewrite map_map. reflexivity. Qed.

(** Runs [RuleFromJsRule] on the description [node] of a rule with tag
    [tag], up to the branch of that tag; then reads a property of it. *)
Ltac build_described node tag :=
  change (RuleFromJsRule (JsRuleFromRule _)) with (RuleFromJsRule node);
  rewrite (RuleFromJsRule_typed node tag eq_refl eq_refl);
  unfold StringFromJsString at 1; cbn [Utf8Value ToString]; rewrite bind_ret_l;
  cbv iota beta delta [c_str String.eqb Ascii.eqb Bool.eqb zero].

Ltac read_described node key v :=
  rewrite (ObjectGet_object node key eq_refl), bind_ret_l;
  change (property node (c_str key)) with v.

Lemma described_rule_builds (rule : Rule) :
  valid_rule rule = true ->
  RuleFromJsRule (JsRuleFromRule rule) = Returns (Some rule) [].
Proof.
  revert rule.
  induction rule as [|elements IH|content IH|value|content IH|elements IH|value|name]
    using Rule_nested_ind; intros Hvalid.
  - vm_compute. reflexivity.
  - destruct (valid_elements elements _ IH Hvalid) as (built & -> & Hbuilt).
    rewrite JsRuleFromRule_Choice.
    rewrite (RuleFromJsRule_typed (members_node "CHOICE" (map JsRuleFromRule built)) "CHOICE"
               eq_refl eq_refl).
    unfold StringFromJsString at 1. cbn [Utf8Value ToString]. rewrite bind_ret_l.
    cbv iota beta delta [c_str String.eqb Ascii.eqb Bool.eqb zero].
    exact (members_well_formed choice (members_node "CHOICE" (map JsRuleFromRule built)) _ built
             eq_refl eq_refl (described_members _ Hbuilt)).
  - simpl in Hvalid. destruct content as [r|]; [|discriminate Hvalid].
    specialize (IH r eq_refl Hvalid).
    build_described (value_node "ERROR" (JsRuleFromRule r)) "ERROR".
    read_described (value_node "ERROR" (JsRuleFromRule r)) "value" (JsRuleFromRule r).
    rewrite IH. reflexivity.
  - simpl in Hvalid.
    build_described (value_node "PATTERN" (JsString value)) "PATTERN".
    read_described (value_node "PATTERN" (JsString value)) "value" (JsString value).
    unfold StringFromJsString. cbn [Utf8Value ToString].
    rewrite (c_str_of_nul_free _ Hvalid). reflexivity.
  - simpl in Hvalid. destruct content as [r|]; [|discriminate Hvalid].
    specialize (IH r eq_refl Hvalid).
    build_described (value_node "REPEAT" (JsRuleFromRule r)) "REPEAT".
    read_described (value_node "REPEAT" (JsRuleFromRule r)) "value" (JsRuleFromRule r).
    rewrite IH. reflexivity.
  - destruct (valid_elements elements _ IH Hvalid) as (built & -> & Hbuilt).
    rewrite JsRuleFromRule_Seq.
    rewrite (RuleFromJsRule_typed (members_node "SEQ" (map JsRuleFromRule built)) "SEQ"
               eq_refl eq_refl).
    unfold StringFromJsString at 1. cbn [Utf8Value ToString]. rewrite bind_ret_l.
    cbv iota beta delta [c_str String.eqb Ascii.eqb Bool.eqb zero].
    exact (members_well_formed seq (members_node "SEQ" (map JsRuleFromRule built)) _ built
             eq_refl eq_refl (described_members _ Hbuilt)).
  - simpl in Hvalid.
    build_described (value_node "STRING" (JsString value)) "STRING".
    read_described (value_node "STRING" (JsString value)) "value" (JsString value).
    unfold StringFromJsString. cbn [Utf8Value ToString].
    rewrite (c_str_of_nul_free _ Hvalid). reflexivity.
  - simpl in Hvalid.
    build_described (symbol_node (JsString name)) "SYMBOL".
    read_described (symbol_node (JsString name)) "name" (JsString name).
    unfold StringFromJsString. cbn [Utf8Value ToString].
    rewrite (c_str_of_nul_free _ Hvalid). reflexivity.
Qed.

(** X1.  Round trip: for every rule tree without null pointers whose
    strings hold no NUL character, building its description gives the tree
    back and throws nothing. *)
Theorem RuleFromJsRule_builds_description :
  forall rule,
    valid_rule rule = true ->
    RuleFromJsRule (JsRuleFromRule rule) = Returns (Some rule) [].
Proof. exact described_rule_builds. Qed.

Lemma RuleFromJsRule_builds_description_witness :
  RuleFromJsRule
    (JsRuleFromRule
       (Seq [Some (Str "if"); Some (Choice [Some (Sym "expr"); Some Blank]);
             Some (Repeat (Some (Pattern "\s"))); Some (Err (Some (Sym "stmt")))]))
  = Returns
      (Some (Seq [Some (Str "if"); Some (Choice [Some (Sym "expr"); Some Blank]);
                  Some (Repeat (Some (Pattern "\s"))); Some (Err (Some (Sym "stmt")))]))
      [].
Proof.
  apply RuleFromJsRule_builds_description. reflexivity.
Defined.

(** ** The assembled grammar *)

Lemma lookup_NoDup (properties : list (string * JsValue)) (key : string) (v : JsValue) :
  NoDup (map fst properties) -> In (key, v) properties -> lookup key properties = Some v.
Proof.
  induction properties as [|[k w] rest IH]; simpl; [tauto|].
  intros Hnodup Hin. apply NoDup_cons_iff in Hnodup as [Hfresh Hnodup].
  destruct Hin as [[= -> ->]|Hin].
  - rewrite String.eqb_refl. reflexivity.
  - destruct (String.eqb_spec k key) as [->|_]; [|now apply IH].
    exfalso. apply Hfresh. change key with (fst (key, v)). now apply in_map.
Qed.

Lemma entries_by_key {X : Type} (entries part : list (string * JsValue))
    (R : JsValue -> X -> Prop) (runs : list X) :
  NoDup (map fst entries) ->
  incl part entries ->
  Forall2 (fun entry run => R (snd entry) run) part runs ->
  Forall2 (fun key run => R (property (JsObject entries) key) run) (map fst part) runs.
Proof.
  intros Hnodup Hincl HF. induction HF as [|[k v] run part runs HR HF IH]; simpl.
  - constructor.
  - constructor.
    + rewrite (lookup_NoDup entries k v Hnodup); [exact HR|].
      apply Hincl. now left.
    + apply IH. intros e He. apply Hincl. now right.
Qed.

Lemma rules_loop_step (js_rules : JsValue) (key : string) (rest : list JsValue)
    (rules : list (string * rule_ptr)) :
  IsObject js_rules = true ->
  rules_loop js_rules (JsString key :: rest) rules
  = (rule <- RuleFromJsRule (property js_rules key) ;;
     match rule with
     | Some _ => rules_loop js_rules rest (rules ++ [(c_str key, rule)])
     | None => ret (MkGrammar [], false)
     end).
Proof.
  intros Hobj. cbn [rules_loop].
  unfold StringFromJsString, Object_Get. cbn [Utf8Value ToString].
  rewrite Hobj, !bind_ret_l. reflexivity.
Qed.

Lemma rules_loop_returns (js_rules : JsValue) :
  IsObject js_rules = true ->
  forall (keys : list string) (runs : list (Rule * list Event))
         (rules : list (string * rule_ptr)),
    Forall2 (fun key run =>
               RuleFromJsRule (property js_rules key) = Returns (Some (fst run)) (snd run))
      keys runs ->
    rules_loop js_rules (map JsString keys) rules
    = Returns
        (MkGrammar
           (rules ++ map (fun kr => (c_str (fst kr), Some (fst (snd kr))))
                         (combine keys runs)), true)
        (concat (map snd runs)).
Proof.
  intros Hobj keys runs rules HF. revert rules.
  induction HF as [|key run keys runs Hrun HF IH]; intros rules.
  - simpl. rewrite app_nil_r. reflexivity.
  - cbn [map]. rewrite (rules_loop_step _ _ _ _ Hobj), Hrun.
    erewrite bind_Returns by apply IH.
    cbn [combine map concat fst snd]. rewrite <- app_assoc. reflexivity.
Qed.

Lemma rules_loop_stops (js_rules : JsValue) (key : string) (after : list JsValue)
    (events : list Event) :
  IsObject js_rules = true ->
  RuleFromJsRule (property js_rules key) = Returns None events ->
  forall (before : list string) (runs : list (Rule * list Event))
         (rules : list (string * rule_ptr)),
    Forall2 (fun k run =>
               RuleFromJsRule (property js_rules k) = Returns (Some (fst run)) (snd run))
      before runs ->
    rules_loop js_rules (map JsString before ++ JsString key :: after) rules
    = Returns (MkGrammar [], false) (concat (map snd runs) ++ events).
Proof.
  intros Hobj Hnull before runs rules HF. revert rules.
  induction HF as [|k run before runs Hrun HF IH]; intros rules.
  - cbn [map app concat]. rewrite (rules_loop_step _ _ _ _ Hobj), Hnull.
    simpl. rewrite app_nil_r. reflexivity.
  - cbn [map app]. rewrite (rules_loop_step _ _ _ _ Hobj), Hrun.
    erewrite bind_Returns by apply IH.
    cbn [map concat]. rewrite <- app_assoc. reflexivity.
Qed.

Lemma GrammarFromJsGrammar_object_rules (js_grammar : JsValue)
    (entries : list (string * JsValue)) :
  IsObject js_grammar = true ->
  property js_grammar "rules" = JsObject entries ->
  GrammarFromJsGrammar js_grammar
  = rules_loop (JsObject entries) (map JsString (map fst entries)) [].
Proof.
  intros Hobj Hrules. unfold GrammarFromJsGrammar.
  read_property js_grammar "rules" Hobj. rewrite Hrules.
  cbn [IsObject negb GetOwnPropertyNames]. rewrite !bind_ret_l.
  rewrite <- (map_map fst JsString). reflexivity.
Qed.

(** X10.  For a description whose [rules] is an object with distinct keys
    and whose entries all build to a non-null rule, the assembler returns
    [true] with the grammar that lists, in the enumeration order of the
    keys, each key (as a C string) with the rule built from its value; the
    exceptions thrown inside the entries follow in the same order.  An
    empty [rules] object gives the empty grammar with [true]. *)
Theorem GrammarFromJsGrammar_orders_rules :
  forall js_grammar entries (runs : list (Rule * list Event)),
    IsObject js_grammar = true ->
    property js_grammar "rules" = JsObject entries ->
    NoDup (map fst entries) ->
    Forall2 (fun entry run =>
               RuleFromJsRule (snd entry) = Returns (Some (fst run)) (snd run))
      entries runs ->
    GrammarFromJsGrammar js_grammar
    = Returns
        (MkGrammar
           (map (fun er => (c_str (fst (fst er)), Some (fst (snd er))))
                (combine entries runs)), true)
        (concat (map snd runs)).
Proof.
  intros js_grammar entries runs Hobj Hrules Hnodup HF.
  rewrite (GrammarFromJsGrammar_object_rules _ _ Hobj Hrules).
  pose proof (entries_by_key entries entries
                (fun v run => RuleFromJsRule v = Returns (Some (fst run)) (snd run))
                runs Hnodup (incl_refl _) HF) as HK.
  cbv beta in HK.
  rewrite (rules_loop_returns (JsObject entries) eq_refl _ _ [] HK).
  cbn [app]. do 3 f_equal.
  clear. revert runs. induction entries as [|[k v] entries IH]; intros [|run runs];
    simpl; try reflexivity.
  rewrite IH. reflexivity.
Qed.

Lemma GrammarFromJsGrammar_orders_rules_witness :
  GrammarFromJsGrammar
    (JsObject [("rules", JsObject [("b", symbol_node (JsString "a"));
                                   ("a", value_node "REPEAT" JsNull);
                                   ("c", JsObject [("type", JsString "BLANK")])])])
  = Returns
      (MkGrammar [("b", Some (Sym "a")); ("a", Some (Repeat None)); ("c", Some Blank)], true)
      [Throw (TypeError "Expected rule to be an object")]
  /\
  GrammarFromJsGrammar (JsObject [("rules", JsObject [])]) = Returns (MkGrammar [], true) [].
Proof.
  split.
  - apply (GrammarFromJsGrammar_orders_rules
             (JsObject [("rules", JsObject [("b", symbol_node (JsString "a"));
                                            ("a", value_node "REPEAT" JsNull);
                                            ("c", JsObject [("type", JsString "BLANK")])])])
             [("b", symbol_node (JsString "a")); ("a", value_node "REPEAT" JsNull);
              ("c", JsObject [("type", JsString "BLANK")])]
             [(Sym "a", []);
              (Repeat None, [Throw (TypeError "Expected rule to be an object")]);
              (Blank, [])]); try reflexivity.
    + repeat constructor; simpl; intuition discriminate.
    + repeat constructor.
  - apply (GrammarFromJsGrammar_orders_rules (JsObject [("rules", JsObject [])]) [] []);
      try reflexivity; constructor.
Defined.

(** X11.  Fail-fast at the top of an entry: when the first entry whose
    build returns the null rule comes after entries that all build to a
    non-null rule, the assembler returns the empty grammar with [false];
    what was built is dropped and the entries after it are not built (they
    contribute no exception, whatever they are).  [Compile] then returns the
    undefined value without calling the compiler. *)
Theorem GrammarFromJsGrammar_stops_at_first_null :
  forall js_grammar before key js_bad after (runs : list (Rule * list Event)) events,
    IsObject js_grammar = true ->
    property js_grammar "rules" = JsObject (before ++ (key, js_bad) :: after) ->
    NoDup (map fst (before ++ (key, js_bad) :: after)) ->
    Forall2 (fun entry run =>
               RuleFromJsRule (snd entry) = Returns (Some (fst run)) (snd run))
      before runs ->
    RuleFromJsRule js_bad = Returns None events ->
    GrammarFromJsGrammar js_grammar
    = Returns (MkGrammar [], false) (concat (map snd runs) ++ events)
    /\
    forall (Conflict GrammarError : Type)
           (compile : Grammar -> string -> string * list Conflict * option GrammarError)
           (rest : list JsValue) (name : string),
      property js_grammar "name" = JsString name ->
      Compile compile (js_grammar :: rest)
      = Returns JsUndefined (concat (map snd runs) ++ events)
      /\ compile_calls (concat (map snd runs) ++ events) = [].
Proof.
  intros js_grammar before key js_bad after runs events Hobj Hrules Hnodup HF Hnull.
  assert (HG : GrammarFromJsGrammar js_grammar
               = Returns (MkGrammar [], false) (concat (map snd runs) ++ events)).
  { rewrite (GrammarFromJsGrammar_object_rules _ _ Hobj Hrules).
    rewrite !map_app. cbn [map fst].
    apply rules_loop_stops; [reflexivity| |].
    - cbn [property]. rewrite (lookup_NoDup _ key js_bad Hnodup); [exact Hnull|].
      apply in_elt.
    - apply (entries_by_key _ before
               (fun v run => RuleFromJsRule v = Returns (Some (fst run)) (snd run))
               runs Hnodup); [|exact HF].
      intros e He. apply in_or_app. now left. }
  split; [exact HG|].
  intros Conflict GrammarError compile rest name Hname. split.
  - exact (Compile_without_grammar Conflict GrammarError compile (js_grammar :: rest)
             name (MkGrammar []) _ Hobj Hname HG).
  - apply rule_errors_no_call. apply Forall_app. split.
    + clear - HF. induction HF as [|e run before runs Hrun _ IH]; simpl; [constructor|].
      apply Forall_app. split; [|exact IH].
      exact (proj2 (RuleFromJsRule_counted _ _ _ Hrun)).
    + exact (proj2 (RuleFromJsRule_counted _ _ _ Hnull)).
Qed.

Lemma GrammarFromJsGrammar_stops_at_first_null_witness :
  GrammarFromJsGrammar
    (JsObject [("name", JsString "g");
               ("rules", JsObject [("a", value_node "ERROR" JsNull);
                                   ("b", JsObject [("type", JsString "NOPE")]);
                                   ("c", JsObject [("type", JsString "CHOICE")]);
                                   ("d", JsNull)])])
  = Returns (MkGrammar [], false)
      [Throw (TypeError "Expected rule to be an object");
       Throw (TypeError "Unexpected rule type: NOPE")]
  /\
  forall (Conflict GrammarError : Type)
         (compile : Grammar -> string -> string * list Conflict * option GrammarError)
         (rest : list JsValue) (name : string),
    property
      (JsObject [("name", JsString "g");
                 ("rules", JsObject [("a", value_node "ERROR" JsNull);
                                     ("b", JsObject [("type", JsString "NOPE")]);
                                     ("c", JsObject [("type", JsString "CHOICE")]);
                                     ("d", JsNull)])]) "name" = JsString name ->
    Compile compile
      (JsObject [("name", JsString "g");
                 ("rules", JsObject [("a", value_node "ERROR" JsNull);
                                     ("b", JsObject [("type", JsString "NOPE")]);
                                     ("c", JsObject [("type", JsString "CHOICE")]);
                                     ("d", JsNull)])] :: rest)
    = Returns JsUndefined
        [Throw (TypeError "Expected rule to be an object");
         Throw (TypeError "Unexpected rule type: NOPE")]
    /\ compile_calls
         [Throw (TypeError "Expected rule to be an object");
          Throw (TypeError "Unexpected rule type: NOPE")] = [].
Proof.
  apply (GrammarFromJsGrammar_stops_at_first_null
           (JsObject [("name", JsString "g");
                      ("rules", JsObject [("a", value_node "ERROR" JsNull);
                                          ("b", JsObject [("type", JsString "NOPE")]);
                                          ("c", JsObject [("type", JsString "CHOICE")]);
                                          ("d", JsNull)])])
           [("a", value_node "ERROR" JsNull)] "b" (JsObject [("type", JsString "NOPE")])
           [("c", JsObject [("type", JsString "CHOICE")]); ("d", JsNull)]
           [(Err None, [Throw (TypeError "Expected rule to be an object")])]
           [Throw (TypeError "Unexpected rule type: NOPE")]); try reflexivity.
  - repeat constructor; simpl; intuition discriminate.
  - repeat constructor.
Defined.

Lemma GetOwnPropertyNames_pure (object : JsValue) (names : list JsValue)
    (events : list Event) :
  GetOwnPropertyNames object = Returns names events ->
  IsObject object = true /\ events = [].
Proof.
  destruct object; try discriminate; intros [= _ <-]; auto.
Qed.

Lemma rules_loop_invariant (js_rules : JsValue) :
  forall (names : list JsValue) (built : list (string * rule_ptr))
         (grammar : Grammar) (ok : bool) (events : list Event),
    rules_loop js_rules names built = Returns (grammar, ok) events ->
    Forall (fun entry => snd entry <> None) built ->
    (ok = false -> grammar = MkGrammar [])
    /\ (ok = true ->
        Forall (fun entry => snd entry <> None) (rules grammar)
        /\ List.length (rules grammar) = List.length built + List.length names)
    /\ Forall rule_error events.
Proof.
  induction names as [|js_rule_name names IH]; intros built grammar ok events H Hbuilt.
  - apply ret_inv in H as [[= -> ->] ->]. split; [discriminate|]. split; [|constructor].
    intros _. split; [exact Hbuilt|]. simpl. lia.
  - cbn [rules_loop] in H. invert_bind H. invert_bind H. invert_bind H.
    apply StringFromJsString_pure in Hrun as (-> & _).
    apply Object_Get_pure in Hrun0 as (_ & -> & _).
    pose proof (proj2 (RuleFromJsRule_counted _ _ _ Hrun1)) as Herr.
    destruct a1 as [rule|].
    + apply IH in H as (Hfalse & Htrue & Hevents).
      * split; [exact Hfalse|]. split.
        -- intros Hok. destruct (Htrue Hok) as [Hnn Hlen]. split; [exact Hnn|].
           rewrite length_app in Hlen. simpl in *. lia.
        -- simpl. apply Forall_app. auto.
      * apply Forall_app. split; [exact Hbuilt|]. constructor; [discriminate|constructor].
    + apply ret_inv in H as [[= -> ->] ->]. split; [reflexivity|]. split; [discriminate|].
      simpl. rewrite app_nil_r. exact Herr.
Qed.

Lemma GrammarFromJsGrammar_loop (js_grammar : JsValue) (result : Grammar * bool)
    (events : list Event) :
  GrammarFromJsGrammar js_grammar = Returns result events ->
  exists names,
    GetOwnPropertyNames (property js_grammar "rules") = Returns names []
    /\ rules_loop (property js_grammar "rules") names [] = Returns result events.
Proof.
  intros H. unfold GrammarFromJsGrammar in H.
  invert_bind H. invert_bind H. invert_bind H.
  unfold ObjectGet in Hrun. apply Object_Get_pure in Hrun as (_ & -> & k & [= <-] & ->).
  change (c_str "rules") with "rules" in *.
  pose proof Hrun1 as Hnames.
  apply GetOwnPropertyNames_pure in Hrun1 as (Hobj & ->).
  rewrite Hobj in Hrun0. apply ret_inv in Hrun0 as [_ ->].
  exists a1. split; [exact Hnames|exact H].
Qed.

(** X12.  For a description whose [rules] is an object, when the
    assembler returns: with [false] the grammar is empty; with [true] the
    grammar has one rule for each own property name of [rules] and none of
    these rules is the null rule; and every exception thrown on the way is
    one of the rule builder's. *)
Theorem GrammarFromJsGrammar_result_invariant :
  forall js_grammar grammar ok events,
    IsObject (property js_grammar "rules") = true ->
    GrammarFromJsGrammar js_grammar = Returns (grammar, ok) events ->
    (ok = false -> grammar = MkGrammar [])
    /\ (ok = true ->
        Forall (fun entry => snd entry <> None) (rules grammar)
        /\ exists names,
            GetOwnPropertyNames (property js_grammar "rules") = Returns names []
            /\ List.length (rules grammar) = List.length names)
    /\ Forall rule_error events.
Proof.
  intros js_grammar grammar ok events _ H.
  apply GrammarFromJsGrammar_loop in H as (names & Hnames & H).
  apply rules_loop_invariant in H as (Hfalse & Htrue & Herr); [|constructor].
  split; [exact Hfalse|]. split; [|exact Herr].
  intros Hok. destruct (Htrue Hok) as [Hnn Hlen]. split; [exact Hnn|].
  exists names. split; [exact Hnames|exact Hlen].
Qed.

Lemma GrammarFromJsGrammar_result_invariant_witness :
  (true = false
   -> MkGrammar [("a", Some Blank); ("b", Some (Repeat None))] = MkGrammar [])
  /\ (true = true ->
      Forall (fun entry : string * rule_ptr => snd entry <> None)
        (rules (MkGrammar [("a", Some Blank); ("b", Some (Repeat None))]))
      /\ exists names,
          GetOwnPropertyNames (property description_with_invalid_subnode "rules")
          = Returns names []
          /\ List.length (rules (MkGrammar [("a", Some Blank); ("b", Some (Repeat None))]))
             = List.length names)
  /\ Forall rule_error [Throw (TypeError "Expected rule to be an object")].
Proof.
  apply (GrammarFromJsGrammar_result_invariant description_with_invalid_subnode).
  - reflexivity.
  - vm_compute. reflexivity.
Defined.

(** ** The boundary *)

Lemma compile_calls_app (events events' : list Event) :
  compile_calls (events ++ events') = (compile_calls events ++ compile_calls events')%list.
Proof.
  induction events as [|[e|g n] events IH]; simpl; [reflexivity|exact IH|].
  rewrite IH. reflexivity.
Qed.

Lemma GrammarFromJsGrammar_no_call (js_grammar : JsValue) (result : Grammar * bool)
    (events : list Event) :
  GrammarFromJsGrammar js_grammar = Returns result events -> compile_calls events = [].
Proof.
  intros H. apply GrammarFromJsGrammar_loop in H as (names & _ & H).
  destruct result as [grammar ok].
  apply rules_loop_invariant in H as (_ & _ & Herr); [|constructor].
  now apply rule_errors_no_call.
Qed.

(** X13.  Every run of [Compile] that returns is of one of two kinds.
    Either it returns the undefined value and the compiler was not called;
    or the assembler returned a grammar with [true], the compiler was
    called exactly once, as the last event, on that grammar and the C
    string of the description's name, and the result is the C string of the
    text of that call. *)
Theorem Compile_calls_compiler_at_most_once :
  forall (Conflict GrammarError : Type)
         (compile : Grammar -> string -> string * list Conflict * option GrammarError)
         (args : list JsValue) (result : JsValue) (events : list Event),
    Compile compile args = Returns result events ->
    (result = JsUndefined /\ compile_calls events = [])
    \/
    (exists grammar name before,
        GrammarFromJsGrammar (nth 0 args JsUndefined) = Returns (grammar, true) before
        /\ property (nth 0 args JsUndefined) "name" = JsString name
        /\ events = (before ++ [CallCompile grammar (c_str name)])%list
        /\ compile_calls events = [(grammar, c_str name)]
        /\ result = String_New (fst (fst (compile grammar (c_str name))))).
Proof.
  intros Conflict GrammarError compile args result events H.
  unfold Compile in H. cbv zeta in H.
  destruct (IsObject (nth 0 args JsUndefined)) eqn:Hobj; cbn [negb] in H.
  2: { injection H as <- <-. left. auto. }
  rewrite (ObjectGet_object _ "name" Hobj), bind_ret_l in H.
  change (c_str "name") with "name" in H.
  destruct (property (nth 0 args JsUndefined) "name") as [| | | |name| |] eqn:Hname;
    cbn [IsString negb] in H;
    try (injection H as <- <-; left; split; reflexivity).
  unfold StringFromJsString in H. cbn [Utf8Value ToString] in H.
  rewrite bind_ret_l in H. invert_bind H.
  pose proof (GrammarFromJsGrammar_no_call _ _ _ Hrun) as Hquiet.
  destruct a as [grammar [|]]; cbn [snd fst negb] in H.
  - invert_bind H. unfold tree_sitter_compile in Hrun0. injection Hrun0 as <- <-.
    apply ret_inv in H as [-> ->]. right. exists grammar, name, e.
    rewrite app_nil_r. repeat split; try assumption.
    rewrite compile_calls_app, Hquiet. reflexivity.
  - apply ret_inv in H as [-> ->]. left. rewrite app_nil_r. auto.
Qed.

Lemma Compile_calls_compiler_at_most_once_witness :
  (JsString "parser for g" = JsUndefined
   /\ compile_calls
        [Throw (TypeError "Expected rule to be an object");
         CallCompile (MkGrammar [("a", Some Blank); ("b", Some (Repeat None))]) "g"] = [])
  \/
  (exists grammar name before,
      GrammarFromJsGrammar (nth 0 [description_with_invalid_subnode] JsUndefined)
      = Returns (grammar, true) before
      /\ property (nth 0 [description_with_invalid_subnode] JsUndefined) "name"
         = JsString name
      /\ [Throw (TypeError "Expected rule to be an object");
          CallCompile (MkGrammar [("a", Some Blank); ("b", Some (Repeat None))]) "g"]
         = (before ++ [CallCompile grammar (c_str name)])%list
      /\ compile_calls
           [Throw (TypeError "Expected rule to be an object");
            CallCompile (MkGrammar [("a", Some Blank); ("b", Some (Repeat None))]) "g"]
         = [(grammar, c_str name)]
      /\ JsString "parser for g"
         = String_New (fst (fst (accepting_compile grammar (c_str name))))).
Proof.
  apply (Compile_calls_compiler_at_most_once unit string accepting_compile
           [description_with_invalid_subnode]).
  vm_compute. reflexivity.
Defined.

Lemma GrammarFromJsGrammar_reads_rules (js_grammar js_grammar' : JsValue) :
  IsObject js_grammar = true ->
  IsObject js_grammar' = true ->
  property js_grammar "rules" = property js_grammar' "rules" ->
  GrammarFromJsGrammar js_grammar = GrammarFromJsGrammar js_grammar'.
Proof.
  intros Ha Hb Hrules. unfold GrammarFromJsGrammar.
  rewrite (ObjectGet_object _ "rules" Ha), (ObjectGet_object _ "rules" Hb), !bind_ret_l.
  change (c_str "rules") with "rules". rewrite Hrules. reflexivity.
Qed.

(** X14.  [Compile] looks at its first argument only, and of an object
    only at the properties [name] and [rules]: two calls whose first
    arguments are objects that agree on these two properties have the same
    outcome, whatever else the objects hold and whatever arguments
    follow. *)
Theorem Compile_reads_name_and_rules :
  forall (Conflict GrammarError : Type)
         (compile : Grammar -> string -> string * list Conflict * option GrammarError)
         (js_grammar js_grammar' : JsValue) (rest rest' : list JsValue),
    IsObject js_grammar = true ->
    IsObject js_grammar' = true ->
    property js_grammar "name" = property js_grammar' "name" ->
    property js_grammar "rules" = property js_grammar' "rules" ->
    Compile compile (js_grammar :: rest) = Compile compile (js_grammar' :: rest').
Proof.
  intros Conflict GrammarError compile a b rest rest' Ha Hb Hname Hrules.
  unfold Compile. cbn [nth]. cbv zeta. rewrite Ha, Hb. cbn [negb].
  rewrite (ObjectGet_object a "name" Ha), (ObjectGet_object b "name" Hb), !bind_ret_l.
  change (c_str "name") with "name". rewrite Hname.
  rewrite (GrammarFromJsGrammar_reads_rules a b Ha Hb Hrules). reflexivity.
Qed.

Lemma Compile_reads_name_and_rules_witness :
  Compile accepting_compile
    [JsObject [("version", JsNumber 2); ("name", JsString "g");
               ("rules", JsObject [("start", value_node "STRING" (JsString "x"))])];
     JsString "ignored"]
  = Compile accepting_compile [example_description].
Proof.
  apply Compile_reads_name_and_rules; reflexivity.
Defined.

(** X15.  Called with no argument, or with a first argument that is not an
    object (a string, a number, null, the undefined value), [Compile] throws
    'Expected grammar to be an object' and returns the undefined value: the
    description is not read, nothing else is thrown and the compiler is not
    called. *)
Theorem Compile_rejects_non_object :
  forall (Conflict GrammarError : Type)
         (compile : Grammar -> string -> string * list Conflict * option GrammarError)
         (args : list JsValue),
    args = [] \/ (exists first rest, args = first :: rest /\ IsObject first = false) ->
    Compile compile args
    = Returns JsUndefined [Throw (TypeError "Expected grammar to be an object")].
Proof.
  intros Conflict GrammarError compile args [->|(first & rest & -> & Hobj)].
  - reflexivity.
  - unfold Compile. cbn [nth]. cbv zeta. rewrite Hobj. reflexivity.
Qed.

Lemma Compile_rejects_non_object_witness :
  Compile accepting_compile []
  = Returns JsUndefined [Throw (TypeError "Expected grammar to be an object")]
  /\
  Compile accepting_compile [JsString "grammar"; example_description]
  = Returns JsUndefined [Throw (TypeError "Expected grammar to be an object")].
Proof.
  split.
  - apply (Compile_rejects_non_object unit string accepting_compile []). now left.
  - apply (Compile_rejects_non_object unit string accepting_compile
             [JsString "grammar"; example_description]).
    right. exists (JsString "grammar"), [example_description]. split; reflexivity.
Defined.

(** ** Exceptions and null pointers of a grammar *)

Lemma rules_loop_counted (js_rules : JsValue) :
  forall (names : list JsValue) (built : list (string * rule_ptr))
         (grammar : Grammar) (events : list Event),
    rules_loop js_rules names built = Returns (grammar, true) events ->
    List.length events + list_sum (map (fun entry => null_count (snd entry)) built)
    = list_sum (map (fun entry => null_count (snd entry)) (rules grammar)).
Proof.
  induction names as [|js_rule_name names IH]; intros built grammar events H.
  - apply ret_inv in H as [[= ->] ->]. reflexivity.
  - cbn [rules_loop] in H. invert_bind H. invert_bind H. invert_bind H.
    apply StringFromJsString_pure in Hrun as (-> & _).
    apply Object_Get_pure in Hrun0 as (_ & -> & _).
    pose proof (proj1 (RuleFromJsRule_counted _ _ _ Hrun1)) as Hlen.
    destruct a1 as [rule|]; [|apply ret_inv in H as [[=] _]].
    apply IH in H. rewrite map_app, list_sum_app in H. simpl in *.
    rewrite length_app. lia.
Qed.

Lemma list_sum_zero {A : Type} (f : A -> nat) (l : list A) :
  list_sum (map f l) = 0 <-> Forall (fun x => f x = 0) l.
Proof.
  induction l as [|x l IH]; simpl.
  - split; [constructor|reflexivity].
  - split.
    + intros H. constructor; [lia|apply IH; lia].
    + intros H. inversion H as [|? ? Hx Hl]; subst. rewrite Hx. now apply IH.
Qed.

(** X16.  For a description whose [rules] is an object, when the
    assembler returns [true] it has thrown exactly one exception for each
    null pointer inside the rules of the grammar it returns.  So such a
    grammar assembled without any exception holds no null pointer, and one
    that holds a null pointer was assembled with an exception thrown. *)
Theorem GrammarFromJsGrammar_one_exception_per_null :
  forall js_grammar grammar events,
    IsObject (property js_grammar "rules") = true ->
    GrammarFromJsGrammar js_grammar = Returns (grammar, true) events ->
    List.length events
    = list_sum (map (fun entry => null_count (snd entry)) (rules grammar))
    /\ (events = []
        <-> Forall (fun entry => null_count (snd entry) = 0) (rules grammar)).
Proof.
  intros js_grammar grammar events _ H.
  apply GrammarFromJsGrammar_loop in H as (names & _ & H).
  apply rules_loop_counted in H. simpl in H. rewrite Nat.add_0_r in H.
  split; [exact H|].
  rewrite <- (list_sum_zero (fun entry : string * rule_ptr => null_count (snd entry))).
  rewrite <- H. destruct events; simpl; split; congruence.
Qed.

Lemma GrammarFromJsGrammar_one_exception_per_null_witness :
  List.length [Throw (TypeError "Expected rule to be an object")]
  = list_sum (map (fun entry : string * rule_ptr => null_count (snd entry))
                  (rules (MkGrammar [("a", Some Blank); ("b", Some (Repeat None))])))
  /\ ([Throw (TypeError "Expected rule to be an object")] = []
      <-> Forall (fun entry : string * rule_ptr => null_count (snd entry) = 0)
                 (rules (MkGrammar [("a", Some Blank); ("b", Some (Repeat None))]))).
Proof.
  apply (GrammarFromJsGrammar_one_exception_per_null description_with_invalid_subnode).
  - reflexivity.
  - vm_compute. reflexivity.
Defined.

(** ** Building the description of a grammar *)

Lemma described_entries (named : list (string * Rule)) :
  Forall (fun entry => nul_free (fst entry) = true /\ valid_rule (snd entry) = true) named ->
  Forall2 (fun entry (run : Rule * list Event) =>
             RuleFromJsRule (snd entry) = Returns (Some (fst run)) (snd run))
    (map (fun entry => (fst entry, JsRuleFromRule (snd entry))) named)
    (map (fun entry => (snd entry, [])) named).
Proof.
  induction 1 as [|entry named [_ Hvalid] _ IH]; simpl; constructor;
    [exact (described_rule_builds _ Hvalid)|exact IH].
Qed.

Lemma described_grammar (named : list (string * Rule)) :
  Forall (fun entry => nul_free (fst entry) = true /\ valid_rule (snd entry) = true) named ->
  map (fun kr : string * (Rule * list Event) => (c_str (fst kr), Some (fst (snd kr))))
      (combine (map fst named) (map (fun entry => (snd entry, [])) named))
  = map (fun entry => (fst entry, Some (snd entry))) named.
Proof.
  induction 1 as [|[name rule] named [Hname _] _ IH]; simpl; [reflexivity|].
  simpl in Hname. rewrite (c_str_of_nul_free _ Hname), IH. reflexivity.
Qed.

(** X17.  Round trip of a whole grammar: for rules with distinct names
    that hold no NUL and are not made of digits only (so that none is an
    array index and the host enumerates them in the order they were added),
    and trees that are valid (no null pointer, no NUL), the assembler turns
    the description of the grammar back into the named rules, in order,
    with [true] and without throwing; and [Compile] on that description
    calls the compiler once, on exactly this grammar and the name, and
    returns the text it generates. *)
Theorem GrammarFromJsGrammar_builds_description :
  forall (name : string) (named : list (string * Rule)),
    NoDup (map fst named) ->
    Forall (fun entry => index_like (fst entry) = false) named ->
    Forall (fun entry => nul_free (fst entry) = true /\ valid_rule (snd entry) = true)
      named ->
    GrammarFromJsGrammar (JsGrammarFromRules name named)
    = Returns (MkGrammar (map (fun entry => (fst entry, Some (snd entry))) named), true) []
    /\
    forall (Conflict GrammarError : Type)
           (compile : Grammar -> string -> string * list Conflict * option GrammarError),
      Compile compile [JsGrammarFromRules name named]
      = Returns
          (String_New
             (fst (fst (compile
                          (MkGrammar (map (fun entry => (fst entry, Some (snd entry))) named))
                          (c_str name)))))
          [CallCompile (MkGrammar (map (fun entry => (fst entry, Some (snd entry))) named))
             (c_str name)].
Proof.
  intros name named Hnodup _ Hvalid.
  set (entries := map (fun entry => (fst entry, JsRuleFromRule (snd entry))) named).
  assert (Hkeys : map fst entries = map fst named)
    by (unfold entries; rewrite map_map; reflexivity).
  assert (HG : GrammarFromJsGrammar (JsGrammarFromRules name named)
               = Returns (MkGrammar (map (fun entry => (fst entry, Some (snd entry))) named),
                          true) []).
  { rewrite (GrammarFromJsGrammar_object_rules (JsGrammarFromRules name named) entries
               eq_refl eq_refl).
    assert (Hnodup' : NoDup (map fst entries)) by (rewrite Hkeys; exact Hnodup).
    pose proof (entries_by_key entries entries
                  (fun v (run : Rule * list Event) =>
                     RuleFromJsRule v = Returns (Some (fst run)) (snd run))
                  _ Hnodup' (incl_refl _) (described_entries named Hvalid)) as HK.
    cbv beta in HK.
    rewrite (rules_loop_returns (JsObject entries) eq_refl _ _ [] HK).
    cbn [app]. rewrite Hkeys, (described_grammar named Hvalid). f_equal.
    clear. induction named as [|entry named IH]; [reflexivity|exact IH]. }
  split; [exact HG|].
  intros Conflict GrammarError compile.
  unfold Compile. cbv zeta. cbn [nth JsGrammarFromRules IsObject negb].
  rewrite (ObjectGet_object (JsGrammarFromRules name named) "name" eq_refl), bind_ret_l.
  change (property _ (c_str "name")) with (JsString name). cbn [IsString negb].
  unfold StringFromJsString. cbn [Utf8Value ToString]. rewrite bind_ret_l.
  fold entries. change (JsObject [("name", JsString name); ("rules", JsObject entries)])
    with (JsGrammarFromRules name named).
  rewrite HG. reflexivity.
Qed.

Lemma GrammarFromJsGrammar_builds_description_witness :
  GrammarFromJsGrammar
    (JsGrammarFromRules "arith"
       [("expr", Choice [Some (Sym "sum"); Some (Sym "number")]);
        ("sum", Seq [Some (Sym "expr"); Some (Str "+"); Some (Sym "expr")]);
        ("number", Repeat (Some (Pattern "\d")))])
  = Returns
      (MkGrammar
         (map (fun entry => (fst entry, Some (snd entry)))
              [("expr", Choice [Some (Sym "sum"); Some (Sym "number")]);
               ("sum", Seq [Some (Sym "expr"); Some (Str "+"); Some (Sym "expr")]);
               ("number", Repeat (Some (Pattern "\d")))]), true) [].
Proof.
  apply (GrammarFromJsGrammar_builds_description "arith"
           [("expr", Choice [Some (Sym "sum"); Some (Sym "number")]);
            ("sum", Seq [Some (Sym "expr"); Some (Str "+"); Some (Sym "expr")]);
            ("number", Repeat (Some (Pattern "\d")))]).
  - repeat constructor; simpl; intuition discriminate.
  - repeat constructor.
  - repeat constructor.
Defined.
